(** * warpos: profile resolution, template/instance locking, two-phase execution

    A shallow embedding of the deterministic core of the warpos tool server
    ([src/profileStore.ts], [src/templateStore.ts], [src/instanceStore.ts],
    [src/schema.ts], [src/taskExecutor.ts], [src/mcdStore.ts] and the
    argument checks of [src/index.ts]) and the properties its specification
    states about it.

    Conventions of the embedding.
    - A file-backed store is a finite map from file path to the parsed
      document the file holds ([YAML.parse] / [JSON.parse] of its text);
      reading a path outside the map is the [ENOENT] rejection of [readFile].
    - The template store writes through [YAML.stringify]: the file it
      writes holds what [YAML.parse] makes of that text. Both functions are
      parameters, as is the Ajv library.
    - A JavaScript object is an association list in [Object.entries] order.
    - A thrown [Error] is a constructor of [Error] below; [message] gives the
      text the source builds for it.
    - [async] functions are run sequentially: every [await] is resolved before
      the next statement. *)

From stdpp Require Import gmap strings list sets relations sorting.
From Stdlib Require Import Ascii.
From Stdlib Require DecimalString DecimalPos.

Set Warnings "-register-all,-clear-no-such-hyp".

(** ** Results and errors *)

Inductive Result (E A : Type) : Type :=
  | Ok (a : A)
  | Err (e : E).
Arguments Ok {E A} a.
Arguments Err {E A} e.

(** The error kinds the specification names; [StorageFailure] is an error
    of the storage layer that reaches the caller as it is, [Unexpected] any
    other error that does. *)
Inductive ErrorKind : Type :=
  | NotFound
  | ValidationError
  | CycleError
  | StateError
  | StorageFailure
  | Unexpected.

(** ** JavaScript built-ins the sources rely on *)

Module Js.

(** [s.startsWith(p)]. *)
Fixpoint startsWith (p s : string) : bool :=
  match p, s with
  | EmptyString, _ => true
  | String a p', String b s' => if Ascii.eqb a b then startsWith p' s' else false
  | String _ _, EmptyString => false
  end.

(** [s.includes(c)] for a one-character [c]. *)
Fixpoint includesChar (c : ascii) (s : string) : bool :=
  match s with
  | EmptyString => false
  | String a s' => if Ascii.eqb a c then true else includesChar c s'
  end.

(** [s.split(c)] for a one-character separator: never the empty list. *)
Fixpoint split (sep : ascii) (s : string) : list string :=
  match s with
  | EmptyString => [EmptyString]
  | String a s' =>
      if Ascii.eqb a sep then EmptyString :: split sep s'
      else match split sep s' with
           | h :: t => String a h :: t
           | [] => [String a EmptyString]
           end
  end.

(** The one-character string of a line feed. *)
Definition newline : string := String "010"%char EmptyString.

(** [parts.join(sep)]. *)
Fixpoint join (sep : string) (parts : list string) : string :=
  match parts with
  | [] => ""
  | [x] => x
  | x :: rest => x +:+ sep +:+ join sep rest
  end.

(** Own-property lookup [o[k]] on an object given by its entries. *)
Fixpoint prop {V : Type} (k : string) (o : list (string * V)) : option V :=
  match o with
  | [] => None
  | (k', v) :: rest => if String.eqb k' k then Some v else prop k rest
  end.

(** Assignment [o[k] = v]: an existing key keeps its place in the
    enumeration order, a new key goes last. *)
Fixpoint setProp {V : Type} (k : string) (v : V) (o : list (string * V))
  : list (string * V) :=
  match o with
  | [] => [(k, v)]
  | (k', v') :: rest =>
      if String.eqb k' k then (k, v) :: rest else (k', v') :: setProp k v rest
  end.

(** Object spread [{ ...a, ...b }]. *)
Definition spread {V : Type} (a b : list (string * V)) : list (string * V) :=
  foldl (λ o kv, setProp kv.1 kv.2 o) a b.

Fixpoint drop (n : nat) (s : string) : string :=
  match n, s with
  | O, _ => s
  | S n', String _ s' => drop n' s'
  | S _, EmptyString => EmptyString
  end.

(** [GetSubstitution] of ECMAScript for a string pattern, which has no
    captures: in the replacement text [$$] stands for a dollar sign, [$&]
    for the matched text, [$`] for the text before the match and [$'] for
    the text after it; any other [$] is literal. *)
Fixpoint getSubstitution (matched before after replacement : string) : string :=
  match replacement with
  | EmptyString => EmptyString
  | String a rest =>
      match rest with
      | String b rest' =>
          if Ascii.eqb a "$" then
            if Ascii.eqb b "$" then
              String "$" (getSubstitution matched before after rest')
            else if Ascii.eqb b "&" then
              matched +:+ getSubstitution matched before after rest'
            else if Ascii.eqb b "`" then
              before +:+ getSubstitution matched before after rest'
            else if Ascii.eqb b "'" then
              after +:+ getSubstitution matched before after rest'
            else String a (getSubstitution matched before after rest)
          else String a (getSubstitution matched before after rest)
      | EmptyString => String a EmptyString
      end
  end.

(** The scan of [replaceAll]: [before] is the text already passed and
    [skip] the number of characters of the current match still to pass. *)
Fixpoint replaceAllFrom (pattern replacement before : string) (skip : nat)
    (s : string) : string :=
  match s with
  | EmptyString => EmptyString
  | String a s' =>
      match skip with
      | S k =>
          replaceAllFrom pattern replacement (before +:+ String a EmptyString) k s'
      | O =>
          if startsWith pattern s then
            getSubstitution pattern before
              (drop (String.length pattern) s) replacement
            +:+ replaceAllFrom pattern replacement
                  (before +:+ String a EmptyString)
                  (String.length pattern - 1) s'
          else
            String a (replaceAllFrom pattern replacement
                        (before +:+ String a EmptyString) O s')
      end
  end.

(** [s.replaceAll(pattern, replacement)] for a non-empty string [pattern]
    and a string [replacement]: the matches are taken left to right
    without overlap, each replaced by its [GetSubstitution]. *)
Definition replaceAll (s pattern replacement : string) : string :=
  replaceAllFrom pattern replacement EmptyString O s.

(** White space and line terminators of [trim] among the code units
    below 256. *)
Definition isWhiteSpace (c : ascii) : bool :=
  match c with
  | "009" | "010" | "011" | "012" | "013" | " " | "160" => true
  | _ => false
  end%char.

Fixpoint trimStart (s : string) : string :=
  match s with
  | String a s' => if isWhiteSpace a then trimStart s' else s
  | EmptyString => EmptyString
  end.

Fixpoint trimEnd (s : string) : string :=
  match s with
  | String a s' =>
      match trimEnd s' with
      | EmptyString => if isWhiteSpace a then EmptyString else String a EmptyString
      | t => String a t
      end
  | EmptyString => EmptyString
  end.

Definition trim (s : string) : string := trimStart (trimEnd s).

(** [String(n)] for an integer. *)
Definition numberToString (n : Z) : string :=
  DecimalString.NilZero.string_of_int (Z.to_int n).

Definition isDigit (c : ascii) : bool :=
  match c with
  | "0" | "1" | "2" | "3" | "4" | "5" | "6" | "7" | "8" | "9" => true
  | _ => false
  end%char.

Definition digitValue (c : ascii) : Z := Z.of_nat (nat_of_ascii c) - 48.

(** [parseInt(ds, 10)] for a string of decimal digits. *)
Definition parseInt (ds : string) : Z :=
  foldl (λ acc c, 10 * acc + digitValue c)%Z 0%Z (String.list_ascii_of_string ds).

(** [s.includes(part)]. *)
Fixpoint includes (part s : string) : bool :=
  startsWith part s
  || match s with
     | String _ s' => includes part s'
     | EmptyString => false
     end.

(** [s.endsWith(suffix)]. *)
Fixpoint endsWith (suffix s : string) : bool :=
  String.eqb suffix s
  || match s with
     | String _ s' => endsWith suffix s'
     | EmptyString => false
     end.

(** [s.slice(0, n)]. *)
Fixpoint take (n : nat) (s : string) : string :=
  match n, s with
  | S n', String a s' => String a (take n' s')
  | _, _ => EmptyString
  end.

End Js.

(** ** Parsed YAML and JSON documents

    Numbers are the integers; [undefined] does not occur in a parsed
    document. *)

Inductive Value : Type :=
  | VNull
  | VBool (b : bool)
  | VNum (n : Z)
  | VStr (s : string)
  | VArr (items : list Value)
  | VObj (entries : list (string * Value)).

(** * profileStore.ts *)

Module ProfileStore.

Inductive Error : Type :=
  | ProfileNotFound (profileId : string)
  | ProfileNotObject (profileId : string)
  | CycleDetected (profileId : string).

Definition message (e : Error) : string :=
  match e with
  | ProfileNotFound i => "Profile '" +:+ i +:+ "' not found"
  | ProfileNotObject i => "Domain profile " +:+ i +:+ " did not parse as an object"
  | CycleDetected i => "Cycle detected in domain profile inheritance at: " +:+ i
  end.

Definition kind (e : Error) : ErrorKind :=
  match e with
  | ProfileNotFound _ => NotFound
  | ProfileNotObject _ => ValidationError
  | CycleDetected _ => CycleError
  end.

Record ObservationGroup : Type := {
  groupPath : string;
  observations : list string
}.

Record ResolvedProfile : Type := {
  id : string;
  filePath : string;
  profile : Value;
  groups : list ObservationGroup
}.

Definition isRecord (v : Value) : bool :=
  match v with VObj _ => true | _ => false end.

(** [v.filter((x) => typeof x === 'string')]. *)
Fixpoint stringItems (items : list Value) : list string :=
  match items with
  | [] => []
  | VStr s :: rest => s :: stringItems rest
  | _ :: rest => stringItems rest
  end.

Fixpoint collectObservationGroups (node : Value) (currentPath : list string)
  : list ObservationGroup :=
  match node with
  | VObj entries =>
      (fix each (es : list (string * Value)) : list ObservationGroup :=
         match es with
         | [] => []
         | (k, v) :: rest =>
             let nextPath := currentPath ++ [k] in
             match String.eqb k "observations", v with
             | true, VArr items =>
                 let obs := stringItems items in
                 match obs with
                 | [] => each rest
                 | _ :: _ =>
                     let gp := match currentPath with
                               | [] => "observations"
                               | _ :: _ => Js.join "." currentPath
                               end in
                     {| groupPath := gp; observations := obs |} :: each rest
                 end
             | _, VObj _ => collectObservationGroups v nextPath ++ each rest
             | _, _ => each rest
             end
         end) entries
  | _ => []
  end.

(** [profileId.replace(/\.\./g, '__')]. *)
Fixpoint replaceDotDot (s : string) : string :=
  match s with
  | String "."%char (String "."%char rest) =>
      String "_"%char (String "_"%char (replaceDotDot rest))
  | String a rest => String a (replaceDotDot rest)
  | EmptyString => EmptyString
  end.

(** The relation entries the loop of [visit] follows: those that are
    objects with [type === 'inherits'] and a string [target]. *)
Definition inheritTarget (r : Value) : option string :=
  match r with
  | VObj es =>
      match Js.prop "type" es, Js.prop "target" es with
      | Some (VStr ty), Some (VStr t) =>
          if String.eqb ty "inherits" then Some t else None
      | _, _ => None
      end
  | _ => None
  end.

(** [Array.isArray(p.profile.relations) ? p.profile.relations : []]. *)
Definition relations (profile : Value) : list Value :=
  match profile with
  | VObj es => match Js.prop "relations" es with
               | Some (VArr rs) => rs
               | _ => []
               end
  | _ => []
  end.

Definition inheritTargets (profile : Value) : list string :=
  omap inheritTarget (relations profile).

Record State : Type := {
  resolved : list ResolvedProfile;
  visiting : gset string;
  visited : gset string
}.

Definition initial : State :=
  {| resolved := []; visiting := ∅; visited := ∅ |}.

(** [for (const x of xs) await f(x)], stopping at the first throw.
    [None] is fuel exhaustion inside [f]. *)
Fixpoint forEach {S : Type} (f : string → S → option (Result Error S))
    (xs : list string) (st : S) : option (Result Error S) :=
  match xs with
  | [] => Some (Ok st)
  | x :: rest =>
      match f x st with
      | Some (Ok st') => forEach f rest st'
      | other => other
      end
  end.

(** [p.profile.description] when it is a non-empty string. *)
Definition descriptionOf (profile : Value) : option string :=
  match profile with
  | VObj es => match Js.prop "description" es with
               | Some (VStr d) => if String.eqb d "" then None else Some d
               | _ => None
               end
  | _ => None
  end.

Definition compileFrameworkPrompt (profiles : list ResolvedProfile) : string :=
  let lines :=
    flat_map (λ p,
      ["# Profile: " +:+ id p]
      ++ match descriptionOf (profile p) with Some d => [d] | None => [] end
      ++ flat_map (λ g,
           (Js.newline +:+ "## " +:+ groupPath g)
           :: map (λ o, "- " +:+ o) (observations g)) (groups p)
      ++ [""]) profiles in
  Js.trim (Js.join Js.newline lines).

Section Store.

(** [path.join] of Node, the directory of the store, and the files
    below it. *)
Variable pathJoin : list string → string.
Variable baseDir : string.
Variable files : gmap string Value.

Definition profilePath (profileId : string) : string :=
  let safeRel := replaceDotDot profileId in
  pathJoin (baseDir :: Js.split "/"%char safeRel) +:+ ".yaml".

Definition loadProfile (profileId : string) : Result Error ResolvedProfile :=
  let filePath := profilePath profileId in
  match files !! filePath with
  | None => Err (ProfileNotFound profileId)
  | Some parsed =>
      if isRecord parsed then
        Ok {| id := profileId; filePath := filePath; profile := parsed;
              groups := collectObservationGroups parsed [] |}
      else Err (ProfileNotObject profileId)
  end.

(** The closure [visit] of [resolveProfiles]; [fuel] bounds the depth of
    the recursion. *)
Fixpoint visit (fuel : nat) (i : string) (st : State)
  : option (Result Error State) :=
  match fuel with
  | O => None
  | S fuel' =>
      if decide (i ∈ visited st) then Some (Ok st)
      else if decide (i ∈ visiting st) then Some (Err (CycleDetected i))
      else
        let st1 := {| resolved := resolved st;
                      visiting := {[i]} ∪ visiting st;
                      visited := visited st |} in
        match loadProfile i with
        | Err e => Some (Err e)
        | Ok p =>
            match forEach (visit fuel') (inheritTargets (profile p)) st1 with
            | Some (Ok st2) =>
                Some (Ok {| resolved := resolved st2 ++ [p];
                            visiting := visiting st2 ∖ {[i]};
                            visited := {[i]} ∪ visited st2 |})
            | other => other
            end
        end
  end.

Definition resolveProfiles (fuel : nat) (entryProfileIds : list string)
  : option (Result Error (list ResolvedProfile)) :=
  match forEach (visit fuel) entryProfileIds initial with
  | Some (Ok st) => Some (Ok (resolved st))
  | Some (Err e) => Some (Err e)
  | None => None
  end.

End Store.

End ProfileStore.

(** * templateStore.ts *)

Module TemplateStore.

Inductive Error : Type :=
  | TemplateNotFound (templateId : string)
  | TemplateNotObject (templateId : string) (version : Z)
  | TemplateInvalid (templateId : string) (version : Z) (errors : list string)
  | ENOENT (path : string)
  | YAMLParseError (thrown : string).

Definition message (e : Error) : string :=
  match e with
  | TemplateNotFound i => "Task template not found: " +:+ i
  | TemplateNotObject i v =>
      "Task template " +:+ i +:+ "@" +:+ Js.numberToString v
      +:+ " did not parse as an object"
  | TemplateInvalid i v errors =>
      "Task template " +:+ i +:+ "@" +:+ Js.numberToString v
      +:+ " failed validation: " +:+ Js.join ", " errors
  | ENOENT path => "ENOENT: no such file or directory, open '" +:+ path +:+ "'"
  | YAMLParseError thrown => thrown
  end.

(** [ENOENT] is the rejection of [readFile] itself and [YAMLParseError]
    what [YAML.parse] throws; [loadTemplate] catches neither. *)
Definition kind (e : Error) : ErrorKind :=
  match e with
  | TemplateNotFound _ => NotFound
  | TemplateNotObject _ _ => ValidationError
  | TemplateInvalid _ _ _ => ValidationError
  | ENOENT _ => StorageFailure
  | YAMLParseError _ => Unexpected
  end.

Record TaskStep : Type := {
  step_id : string;
  instruction : string
}.

Record VerificationStep : Type := {
  verify_id : string;
  command : string
}.

(** [extra] holds the keys [additionalProperties: true] lets through. *)
Record TaskTemplate : Type := {
  id : string;
  version : Z;
  description : string;
  inputs_schema : list (string * Value);
  outputs_schema : list (string * Value);
  steps : list TaskStep;
  verification : option (list VerificationStep);
  domain_profiles_default : option (list string);
  mcd_selectors : option (list string);
  active : option bool;
  deprecated : option bool;
  deprecated_at : option string;
  deprecated_reason : option string;
  extra : list (string * Value)
}.

(** What [YAML.parse] makes of the text of a file: it throws, or gives
    something that is not an object, or a document of the [TaskTemplate]
    shape. *)
Inductive Document : Type :=
  | Unparsable (thrown : string)
  | NotARecord
  | TemplateDoc (t : TaskTemplate).

(** [validateSchema(TASK_TEMPLATE_SCHEMA, parsed).errors] on a document of
    the [TaskTemplate] shape: its [type] and [required] keywords hold by
    typing, [minLength], [minimum] and [minItems] remain. *)
Definition validateTemplate (t : TaskTemplate) : list string :=
  (if String.eqb (id t) "" then ["/id must NOT have fewer than 1 characters"] else [])
  ++ (if (version t <? 1)%Z then ["/version must be >= 1"] else [])
  ++ (if String.eqb (description t) ""
      then ["/description must NOT have fewer than 1 characters"] else [])
  ++ (match steps t with
      | [] => ["/steps must NOT have fewer than 1 items"]
      | _ :: _ => []
      end).

Definition templateFilename (templateId : string) (version : Z) : string :=
  templateId +:+ "@" +:+ Js.numberToString version +:+ ".yaml".

(** Matching without regard to case ([/i]) against a lower-case letter. *)
Definition matchesIgnoringCase (lower c : ascii) : bool :=
  Ascii.eqb c lower
  || Ascii.eqb (ascii_of_nat (nat_of_ascii c + 32)) lower
     && Nat.leb 65 (nat_of_ascii c) && Nat.leb (nat_of_ascii c) 90.

Fixpoint stripIgnoringCase (p cs : list ascii) : option (list ascii) :=
  match p, cs with
  | [], _ => Some cs
  | a :: p', c :: cs' =>
      if matchesIgnoringCase a c then stripIgnoringCase p' cs' else None
  | _ :: _, [] => None
  end.

(** The extension [\.ya?ml$] of the file-name pattern, taken off the
    reversed name. *)
Definition stripExtension (reversed : list ascii) : option (list ascii) :=
  match stripIgnoringCase (String.list_ascii_of_string "lmay.") reversed with
  | Some rest => Some rest
  | None => stripIgnoringCase (String.list_ascii_of_string "lmy.") reversed
  end.

Fixpoint spanDigits (cs : list ascii) : list ascii * list ascii :=
  match cs with
  | c :: rest =>
      if Js.isDigit c then let (ds, r) := spanDigits rest in (c :: ds, r)
      else ([], cs)
  | [] => ([], [])
  end.

(** A character [.] of a regular expression matches: anything but a line
    terminator. *)
Definition isLineTerminator (c : ascii) : bool :=
  match c with "010" | "013" => true | _ => false end%char.

(** [filename.match(/^(.+)@(\d+)\.ya?ml$/i)] and what follows it. *)
Definition parseFilename (filename : string) : option (string * Z) :=
  match stripExtension (reverse (String.list_ascii_of_string filename)) with
  | None => None
  | Some r =>
      match spanDigits r with
      | (d :: ds, "@"%char :: c :: cs) =>
          if existsb isLineTerminator (c :: cs) then None else
          let id := String.string_of_list_ascii (reverse (c :: cs)) in
          let version := Js.parseInt (String.string_of_list_ascii (reverse (d :: ds))) in
          if (version <? 1)%Z then None else Some (id, version)
      | _ => None
      end
  end.

(** The order of [versions.sort((a, b) => b - a)]. *)
Definition descending : relation Z := λ a b, (b ≤ a)%Z.

#[global] Instance descending_dec : RelDecision descending :=
  λ a b, decide (b ≤ a)%Z.

#[global] Instance descending_trans : Transitive descending.
Proof. intros a b c. unfold descending. lia. Qed.

#[global] Instance descending_total : Total descending.
Proof. intros a b. unfold descending. lia. Qed.

Section Store.

(** The files of the store, by path relative to its directory: each
    file is given by what [YAML.parse] makes of its text. *)
Variable files : gmap string Document.

(** [readdir(baseDir)] keeping what [e.isFile()] keeps: the names of the
    files directly in the directory. *)
Definition readdir : list string :=
  filter (λ name, Js.includesChar "/" name = false) (elements (dom files)).

Definition listTemplateVersions (templateId : string) : list Z :=
  let versions :=
    omap (λ name,
            match parseFilename name with
            | Some (i, v) => if String.eqb i templateId then Some v else None
            | None => None
            end) readdir in
  merge_sort descending versions.

Definition getLatestVersion (templateId : string) : option Z :=
  head (listTemplateVersions templateId).

Definition loadTemplate (templateId : string) (version : option Z)
  : Result Error TaskTemplate :=
  let targetVersion :=
    match version with
    | Some v => Some v
    | None => getLatestVersion templateId
    end in
  match targetVersion with
  | None => Err (TemplateNotFound templateId)
  | Some targetVersion =>
      let filePath := templateFilename templateId targetVersion in
      match files !! filePath with
      | None => Err (ENOENT filePath)
      | Some (Unparsable thrown) => Err (YAMLParseError thrown)
      | Some NotARecord => Err (TemplateNotObject templateId targetVersion)
      | Some (TemplateDoc parsed) =>
          match validateTemplate parsed with
          | [] => Ok parsed
          | errors => Err (TemplateInvalid templateId targetVersion errors)
          end
      end
  end.

(** [reason && reason.trim().length > 0]. *)
Definition reasonGiven (reason : option string) : bool :=
  match reason with
  | Some r => negb (String.eqb r "") && negb (String.eqb (Js.trim r) "")
  | None => false
  end.

(** [YAML.stringify] and [YAML.parse] of the yaml library. A file that
    [writeFile] has written with the text of a template is, to later
    reads, what [YAML.parse] makes of that text. *)
Variable YAML_stringify : TaskTemplate → string.
Variable YAML_parse : string → Document.

(** [now] is [new Date().toISOString()]. *)
Definition deleteTemplate (now : string) (templateId : string) (version : Z)
    (reason : option string)
  : gmap string Document * Result Error (string * Z * bool) :=
  match loadTemplate templateId (Some version) with
  | Err e => (files, Err e)
  | Ok template =>
      let template' :=
        {| id := id template;
           version := TemplateStore.version template;
           description := description template;
           inputs_schema := inputs_schema template;
           outputs_schema := outputs_schema template;
           steps := steps template;
           verification := verification template;
           domain_profiles_default := domain_profiles_default template;
           mcd_selectors := mcd_selectors template;
           active := Some false;
           deprecated := Some true;
           deprecated_at := Some now;
           deprecated_reason :=
             if reasonGiven reason then reason else deprecated_reason template;
           extra := extra template |} in
      let filePath := templateFilename templateId version in
      let yamlText := YAML_stringify template' in
      (<[filePath := YAML_parse yamlText]> files,
       Ok (templateId, version, true))
  end.

(** What [putTemplate] throws: the refusal of an invalid template, or the
    rejection of [writeFile] when the directory of the path is missing. *)
Inductive PutError : Type :=
  | InvalidTemplate (errors : list string)
  | WriteENOENT (path : string).

(** The directory part of a relative path; empty for a name directly in
    the directory of the store. *)
Definition parentOf (path : string) : string :=
  Js.join "/" (removelast (Js.split "/" path)).

(** The directory of the store exists once [mkdir] has run; a directory
    below it exists when a file lies under it. *)
Definition directoryExists (dir : string) : bool :=
  String.eqb dir ""
  || existsb (λ name, Js.startsWith (dir +:+ "/") name) (elements (dom files)).

(** The file of the result is given relative to the directory of the
    store. *)
Definition putTemplate (template : TaskTemplate)
  : gmap string Document * Result PutError (string * Z * string) :=
  match validateTemplate template with
  | (_ :: _) as errors => (files, Err (InvalidTemplate errors))
  | [] =>
      let filePath := templateFilename (id template) (TemplateStore.version template) in
      let yamlText := YAML_stringify template in
      if directoryExists (parentOf filePath) then
        (<[filePath := YAML_parse yamlText]> files,
         Ok (id template, TemplateStore.version template, filePath))
      else (files, Err (WriteENOENT filePath))
  end.

End Store.

End TemplateStore.


(** * schema.ts *)

Module Schema.

Record AjvOptions : Type := {
  allErrors : bool;
  allowUnionTypes : bool
}.

(** The options [createAjv] constructs its validator with. *)
Definition createAjv : AjvOptions :=
  {| allErrors := true; allowUnionTypes := true |}.

Record ErrorObject : Type := {
  instancePath : string;
  message : option string
}.

(** What a compiled validator leaves behind: its verdict and
    [validate.errors] ([None] is [null]). *)
Record Verdict : Type := {
  passed : bool;
  reported : option (list ErrorObject)
}.

(** The Ajv library: [ajv.compile(schema)] throws on a schema it refuses,
    otherwise gives the validator. *)
Definition Ajv : Type :=
  AjvOptions → list (string * Value) → Result string (Value → Verdict).

Record Validation : Type := {
  valid : bool;
  errors : list string
}.

Definition formatError (e : ErrorObject) : string :=
  let at_ := if String.eqb (instancePath e) "" then "/" else instancePath e in
  at_ +:+ " " +:+ default "is invalid" (message e).

Definition validateSchema (ajv : Ajv) (schema : list (string * Value))
    (value : Value) : Result string Validation :=
  match ajv createAjv schema with
  | Err thrown => Err thrown
  | Ok validate =>
      let verdict := validate value in
      if negb (passed verdict) then
        let errors := match reported verdict with
                      | Some es => map formatError es
                      | None => ["unknown validation error"]
                      end in
        Ok {| valid := false; errors := errors |}
      else Ok {| valid := true; errors := [] |}
  end.

(** ** Ajv on flat object schemas

    The Ajv library is not part of the sources; what follows records how
    a validator compiled by Ajv 8 behaves on a schema that only lists
    required properties and gives properties a type. A required property
    the data lacks is reported at the object as
    [must have required property 'name'], then a property of another type
    than the schema gives it is reported at [/name] as [must be type]. With
    [allErrors] the validator goes on after the first violation, without it
    it stops there. *)

Definition typeNames : list string :=
  ["null"; "boolean"; "integer"; "number"; "string"; "array"; "object"].

(** Whether a value has the type a [type] keyword names. *)
Definition hasType (type : string) (v : Value) : bool :=
  match v with
  | VNull => String.eqb type "null"
  | VBool _ => String.eqb type "boolean"
  | VNum _ => String.eqb type "number" || String.eqb type "integer"
  | VStr _ => String.eqb type "string"
  | VArr _ => String.eqb type "array"
  | VObj _ => String.eqb type "object"
  end.

(** The names every object inherits a property for. *)
Definition inheritedNames : list string :=
  ["__defineGetter__"; "__defineSetter__"; "__lookupGetter__";
   "__lookupSetter__"; "__proto__"; "constructor"; "hasOwnProperty";
   "isPrototypeOf"; "propertyIsEnumerable"; "toLocaleString"; "toString";
   "valueOf"].

(** A property name that is written as it is in an instance path and that
    no object inherits. *)
Definition plainName (name : string) : bool :=
  negb (Js.includesChar "/" name) && negb (Js.includesChar "~" name)
  && negb (bool_decide (name ∈ inheritedNames)).


Definition wellFormed (required : list string)
    (properties : list (string * string)) : bool :=
  bool_decide (NoDup required) && bool_decide (NoDup properties.*1)
  && forallb plainName required
  && forallb (λ pt, plainName pt.1 && bool_decide (pt.2 ∈ typeNames)) properties.

Inductive Violation : Type :=
  | Missing (name : string)
  | WrongType (name type : string).

(** The violations of a flat schema by the properties of an object: the
    required names it lacks, in the order of [required], then the
    properties it has with another type, in the order of [properties]. *)
Definition violations (required : list string)
    (properties : list (string * string)) (data : list (string * Value))
  : list Violation :=
  omap (λ name, match Js.prop name data with
                | None => Some (Missing name)
                | Some _ => None
                end) required
  ++ omap (λ pt, match Js.prop pt.1 data with
                 | Some v => if hasType pt.2 v then None
                             else Some (WrongType pt.1 pt.2)
                 | None => None
                 end) properties.

Definition report (v : Violation) : ErrorObject :=
  match v with
  | Missing name =>
      {| instancePath := "";
         message := Some ("must have required property '" +:+ name +:+ "'") |}
  | WrongType name type =>
      {| instancePath := "/" +:+ name; message := Some ("must be " +:+ type) |}
  end.

Definition flatVerdict (options : AjvOptions) (required : list string)
    (properties : list (string * string)) (value : Value) : Verdict :=
  match value with
  | VObj data =>
      let all := map report (violations required properties data) in
      let shown := if allErrors options then all else take 1 all in
      match shown with
      | [] => {| passed := true; reported := None |}
      | _ :: _ => {| passed := false; reported := Some shown |}
      end
  | _ =>
      {| passed := false;
         reported := Some [{| instancePath := "";
                              message := Some "must be object" |}] |}
  end.


End Schema.

(** * instanceStore.ts

    Its text follows that of [schema.ts] in [src/schema.ts]. *)

Module InstanceStore.

Inductive Status : Type := pending | prepared | executed | failed.

Record TaskInstance : Type := {
  instance_id : string;
  project_slug : string;
  template_id : string;
  template_version : Z;
  inputs : list (string * Value);
  mcd_hash : string;
  domain_profiles : list string;
  created_at : string;
  status : option Status
}.

Inductive Error : Type :=
  | FromTemplateStore (e : TemplateStore.Error)
  | SchemaRefused (thrown : string)
  | InputValidationFailed (templateId : string) (templateVersion : Z)
      (errors : list string)
  | GeneratedInstanceInvalid (errors : list string)
  | InstanceNotFound (instanceId projectSlug : string)
  | InvalidInstanceStructure (errors : list string).

Definition message (e : Error) : string :=
  match e with
  | FromTemplateStore e' => TemplateStore.message e'
  | SchemaRefused thrown => thrown
  | InputValidationFailed i v errors =>
      "Input validation failed for template " +:+ i +:+ "@"
      +:+ Js.numberToString v +:+ ": " +:+ Js.join ", " errors
  | GeneratedInstanceInvalid errors =>
      "Generated instance failed validation: " +:+ Js.join ", " errors
  | InstanceNotFound i slug =>
      "Task instance '" +:+ i +:+ "' not found in project '" +:+ slug +:+ "'"
  | InvalidInstanceStructure errors =>
      "Invalid task instance structure: " +:+ Js.join ", " errors
  end.

Definition kind (e : Error) : ErrorKind :=
  match e with
  | FromTemplateStore e' => TemplateStore.kind e'
  | SchemaRefused _ => Unexpected
  | InputValidationFailed _ _ _ => ValidationError
  | GeneratedInstanceInvalid _ => ValidationError
  | InstanceNotFound _ _ => NotFound
  | InvalidInstanceStructure _ => ValidationError
  end.

(** [validateSchema(TASK_INSTANCE_SCHEMA, instance).errors] on a record of
    the [TaskInstance] shape: what remains of the schema beyond the types. *)
Definition validateInstance (i : TaskInstance) : list string :=
  (if String.eqb (instance_id i) ""
   then ["/instance_id must NOT have fewer than 1 characters"] else [])
  ++ (if String.eqb (project_slug i) ""
      then ["/project_slug must NOT have fewer than 1 characters"] else [])
  ++ (if String.eqb (template_id i) ""
      then ["/template_id must NOT have fewer than 1 characters"] else [])
  ++ (if (template_version i <? 1)%Z
      then ["/template_version must be >= 1"] else [])
  ++ (if String.eqb (mcd_hash i) ""
      then ["/mcd_hash must NOT have fewer than 1 characters"] else []).

Definition instancePath (projectSlug instanceId : string) : string :=
  projectSlug +:+ "/" +:+ instanceId +:+ ".json".

Section Store.

Variable ajv : Schema.Ajv.

(** The files of the template store and of the instance store, by path
    relative to each store's directory. *)
Variable templates : gmap string TemplateStore.Document.
Variable files : gmap string TaskInstance.

Definition getInstance (projectSlug instanceId : string)
  : Result Error TaskInstance :=
  match files !! instancePath projectSlug instanceId with
  | None => Err (InstanceNotFound instanceId projectSlug)
  | Some instance =>
      match validateInstance instance with
      | [] => Ok instance
      | errors => Err (InvalidInstanceStructure errors)
      end
  end.

(** [uuid] is [randomUUID()] and [now] is [new Date().toISOString()]. *)
Definition generateInstance (uuid now : string)
    (projectSlug templateId : string) (templateVersion : Z)
    (inputs : list (string * Value)) (mcdHash : string)
    (domainProfiles : list string)
  : gmap string TaskInstance * Result Error TaskInstance :=
  match TemplateStore.loadTemplate templates templateId (Some templateVersion) with
  | Err e => (files, Err (FromTemplateStore e))
  | Ok template =>
      match Schema.validateSchema ajv (TemplateStore.inputs_schema template)
              (VObj inputs) with
      | Err thrown => (files, Err (SchemaRefused thrown))
      | Ok inputValidation =>
          if negb (Schema.valid inputValidation) then
            (files, Err (InputValidationFailed templateId templateVersion
                           (Schema.errors inputValidation)))
          else
            let instance :=
              {| instance_id := uuid;
                 project_slug := projectSlug;
                 template_id := templateId;
                 template_version := templateVersion;
                 inputs := inputs;
                 mcd_hash := mcdHash;
                 domain_profiles := domainProfiles;
                 created_at := now;
                 status := Some pending |} in
            match validateInstance instance with
            | (_ :: _) as errors => (files, Err (GeneratedInstanceInvalid errors))
            | [] =>
                let filePath := instancePath projectSlug (instance_id instance) in
                (<[filePath := instance]> files, Ok instance)
            end
      end
  end.

(** [readdir(dir)] of the directory of a project: the names directly in
    it, those of the files and of the directories that hold files. *)
Definition readProjectDir (projectSlug : string) : list string :=
  let dir := projectSlug +:+ "/" in
  remove_dups
    (omap (λ path,
             if Js.startsWith dir path then
               head (Js.split "/" (Js.drop (String.length dir) path))
             else None)
          (elements (dom files))).

(** [f.replace(/\.json$/, '')] on a name that ends with [.json]. *)
Definition withoutJson (name : string) : string :=
  Js.take (String.length name - 5) name.

(** [listInstances]; the default order of [sort()] is that of the code
    units. A directory that does not exist lists nothing. *)
Definition listInstances (projectSlug : string) : list string :=
  merge_sort String.le
    (map withoutJson
       (filter (λ f, Js.endsWith ".json" f = true) (readProjectDir projectSlug))).

End Store.

End InstanceStore.

(** * taskExecutor.ts *)

Module TaskExecutor.

Inductive Status : Type := pending | executing | completed | failed.

#[global] Instance Status_eq_dec : EqDecision Status.
Proof. solve_decision. Defined.

Definition statusText (s : Status) : string :=
  match s with
  | pending => "pending"
  | executing => "executing"
  | completed => "completed"
  | failed => "failed"
  end.

Record ExecutionPlan : Type := {
  plan_id : string;
  instance_id : string;
  project_slug : string;
  template_id : string;
  template_version : Z;
  created_at : string;
  steps : list TemplateStore.TaskStep;
  verification : list TemplateStore.VerificationStep;
  domain_framework : option string;
  status : Status
}.

(** Assignment [plan.status = s]. *)
Definition withStatus (s : Status) (plan : ExecutionPlan) : ExecutionPlan :=
  {| plan_id := plan_id plan;
     instance_id := instance_id plan;
     project_slug := project_slug plan;
     template_id := template_id plan;
     template_version := template_version plan;
     created_at := created_at plan;
     steps := steps plan;
     verification := verification plan;
     domain_framework := domain_framework plan;
     status := s |}.

Inductive Error : Type :=
  | FromInstanceStore (e : InstanceStore.Error)
  | FromTemplateStore (e : TemplateStore.Error)
  | FromProfileStore (e : ProfileStore.Error)
  | CannotExecute (status : Status)
  | ENOENT (path : string)
  | StepFailed (thrown : string).

Definition message (e : Error) : string :=
  match e with
  | FromInstanceStore e' => InstanceStore.message e'
  | FromTemplateStore e' => TemplateStore.message e'
  | FromProfileStore e' => ProfileStore.message e'
  | CannotExecute s => "Cannot execute plan with status: " +:+ statusText s
  | ENOENT path => "ENOENT: no such file or directory, open '" +:+ path +:+ "'"
  | StepFailed thrown => thrown
  end.

Definition kind (e : Error) : ErrorKind :=
  match e with
  | FromInstanceStore e' => InstanceStore.kind e'
  | FromTemplateStore e' => TemplateStore.kind e'
  | FromProfileStore e' => ProfileStore.kind e'
  | CannotExecute _ => StateError
  | ENOENT _ => StorageFailure
  | StepFailed _ => Unexpected
  end.

Definition planPath (planId : string) : string := planId +:+ ".yaml".

Section Substitution.

(** [JSON.stringify(value, null, 2)] of the language. *)
Variable JSON_stringify : Value → string.

(** The text [substituteVariables] puts in place of a placeholder. *)
Definition replacementOf (value : Value) : string :=
  match value with
  | VStr s => s
  | VNum n => Js.numberToString n
  | VBool b => if b then "true" else "false"
  | VNull => ""
  | VArr _ | VObj _ => JSON_stringify value
  end.

Definition deriveConvenienceVariables (inputs : list (string * Value))
  : list (string * string) :=
  match Js.prop "endpoint_path" inputs with
  | Some (VStr path) =>
      let segments :=
        filter (λ s, negb (String.eqb s "") && negb (Js.includesChar ":" s)
                     && negb (Js.includesChar "?" s) = true)
               (Js.split "/" path) in
      match last segments with
      | Some segment => [("resource", segment)]
      | None => []
      end
  | _ => []
  end.

(** [{ ...inputs, ...derivedVars }]. *)
Definition allVars (inputs : list (string * Value)) : list (string * Value) :=
  Js.spread inputs
    (map (λ kv, (kv.1, VStr kv.2)) (deriveConvenienceVariables inputs)).

Definition placeholder (key : string) : string := "{" +:+ key +:+ "}".

(** The loop of [substituteVariables] over the entries of [vars]. *)
Definition substituteEach (vars : list (string * Value)) (template : string)
  : string :=
  foldl (λ result kv, Js.replaceAll result (placeholder kv.1) (replacementOf kv.2))
        template vars.

Definition substituteVariables (template : string)
    (inputs : list (string * Value)) : string :=
  substituteEach (allVars inputs) template.

(** The [steps] and [verification] of the plan [prepareTask] builds. *)
Definition renderSteps (template : TemplateStore.TaskTemplate)
    (inputs : list (string * Value)) : list TemplateStore.TaskStep :=
  map (λ step,
         {| TemplateStore.step_id := TemplateStore.step_id step;
            TemplateStore.instruction :=
              substituteVariables (TemplateStore.instruction step) inputs |})
      (TemplateStore.steps template).

Definition renderVerification (template : TemplateStore.TaskTemplate)
    (inputs : list (string * Value)) : list TemplateStore.VerificationStep :=
  map (λ v,
         {| TemplateStore.verify_id := TemplateStore.verify_id v;
            TemplateStore.command :=
              substituteVariables (TemplateStore.command v) inputs |})
      (default [] (TemplateStore.verification template)).

(** [prepareTask]. [fuel] bounds the depth of the profile resolution
    ([None] is its exhaustion), [planId] is [randomUUID()] and [now] is
    [new Date().toISOString()]. *)
Definition prepareTask
    (pathJoin : list string → string) (profilesDir : string)
    (profiles : gmap string Value)
    (templates : gmap string TemplateStore.Document)
    (instances : gmap string InstanceStore.TaskInstance)
    (plans : gmap string ExecutionPlan)
    (fuel : nat) (planId now : string) (projectSlug instanceId : string)
  : option (gmap string ExecutionPlan * Result Error ExecutionPlan) :=
  match InstanceStore.getInstance instances projectSlug instanceId with
  | Err e => Some (plans, Err (FromInstanceStore e))
  | Ok instance =>
      match TemplateStore.loadTemplate templates
              (InstanceStore.template_id instance)
              (Some (InstanceStore.template_version instance)) with
      | Err e => Some (plans, Err (FromTemplateStore e))
      | Ok template =>
          let framework :=
            match InstanceStore.domain_profiles instance with
            | [] => Some (Ok None)
            | (_ :: _) as ids =>
                match ProfileStore.resolveProfiles pathJoin profilesDir profiles
                        fuel ids with
                | None => None
                | Some (Err e) => Some (Err (FromProfileStore e))
                | Some (Ok resolved) =>
                    Some (Ok (Some (ProfileStore.compileFrameworkPrompt resolved)))
                end
            end in
          match framework with
          | None => None
          | Some (Err e) => Some (plans, Err e)
          | Some (Ok domainFramework) =>
              let plan :=
                {| plan_id := planId;
                   instance_id := InstanceStore.instance_id instance;
                   project_slug := InstanceStore.project_slug instance;
                   template_id := InstanceStore.template_id instance;
                   template_version := InstanceStore.template_version instance;
                   created_at := now;
                   steps := renderSteps template (InstanceStore.inputs instance);
                   verification :=
                     renderVerification template (InstanceStore.inputs instance);
                   domain_framework := domainFramework;
                   status := pending |} in
              Some (<[planPath (plan_id plan) := plan]> plans, Ok plan)
          end
      end
  end.

End Substitution.

(** The body of the [try] block of [executeTask] before the plan is marked
    completed: one result line per step, then one per verification entry. *)
Definition applyPlan (plan : ExecutionPlan) : Result Error (list string) :=
  Ok (map (λ step, "[Step " +:+ TemplateStore.step_id step +:+ "] "
                   +:+ TemplateStore.instruction step) (steps plan)
      ++ map (λ verify, "[Verify " +:+ TemplateStore.verify_id verify +:+ "] "
                        +:+ TemplateStore.command verify) (verification plan)).

(** [executeTask] around the routine that applies the steps. The plans are
    the files of the plans directory, by path relative to it. *)
Definition executeTaskWith
    (apply : ExecutionPlan → Result Error (list string))
    (plans : gmap string ExecutionPlan) (planId : string)
  : gmap string ExecutionPlan * Result Error (ExecutionPlan * list string) :=
  let path := planPath planId in
  match plans !! path with
  | None => (plans, Err (ENOENT path))
  | Some plan =>
      if decide (status plan ≠ pending) then
        (plans, Err (CannotExecute (status plan)))
      else
        let plan1 := withStatus executing plan in
        let plans1 := <[path := plan1]> plans in
        match apply plan1 with
        | Ok results =>
            let plan2 := withStatus completed plan1 in
            (<[path := plan2]> plans1, Ok (plan2, results))
        | Err err =>
            let plan2 := withStatus failed plan1 in
            (<[path := plan2]> plans1, Err err)
        end
  end.

Definition executeTask := executeTaskWith applyPlan.


End TaskExecutor.

(** * index.ts: the checks on tool arguments *)

Module Index.

Inductive Error : Type :=
  | NotNonEmptyString (label : string)
  | NotStringArray (label : string)
  | InvalidProfileId
  | InvalidProjectSlug
  | InvalidProjectSlugCharacters.

Definition message (e : Error) : string :=
  match e with
  | NotNonEmptyString label => label +:+ " must be a non-empty string"
  | NotStringArray label => label +:+ " must be a non-empty array of strings"
  | InvalidProfileId =>
      "Invalid profile id (must be a repo-relative id using `/` separators)"
  | InvalidProjectSlug => "Invalid project_slug"
  | InvalidProjectSlugCharacters =>
      "Invalid project_slug (allowed: letters, numbers, dot, underscore, dash)"
  end.

(** [v.trim().length === 0]. *)
Definition blank (s : string) : bool := String.eqb (Js.trim s) "".

(** [asNonEmptyString]; an argument that is not given is [None]. *)
Definition asNonEmptyString (v : option Value) (label : string)
  : Result Error string :=
  match v with
  | Some (VStr s) => if blank s then Err (NotNonEmptyString label) else Ok s
  | _ => Err (NotNonEmptyString label)
  end.

Definition asStringArray (v : option Value) (label : string)
  : Result Error (list string) :=
  match v with
  | Some (VArr (x :: xs)) =>
      let out :=
        omap (λ item, match item with
                      | VStr s => if blank s then None else Some s
                      | _ => None
                      end) (x :: xs) in
      if Nat.eqb (length out) (length (x :: xs)) then Ok out
      else Err (NotStringArray label)
  | _ => Err (NotStringArray label)
  end.

Definition assertSafeProfileId (id : string) : Result Error unit :=
  if Js.includesChar "\" id || Js.startsWith "/" id || Js.includes ".." id
  then Err InvalidProfileId
  else Ok tt.

(** A character of the class [[a-zA-Z0-9._-]]. *)
Definition slugCharacter (c : ascii) : bool :=
  let n := nat_of_ascii c in
  (Nat.leb 97 n && Nat.leb n 122) || (Nat.leb 65 n && Nat.leb n 90)
  || (Nat.leb 48 n && Nat.leb n 57)
  || Ascii.eqb c "." || Ascii.eqb c "_" || Ascii.eqb c "-".

Definition assertSafeProjectSlug (slug : string) : Result Error unit :=
  if Js.includesChar "\" slug || Js.includesChar "/" slug
     || Js.includes ".." slug || Nat.ltb 120 (String.length slug)
  then Err InvalidProjectSlug
  else if negb (negb (String.eqb slug "")
                && forallb slugCharacter (String.list_ascii_of_string slug))
  then Err InvalidProjectSlugCharacters
  else Ok tt.

End Index.

(** * mcdStore.ts *)

Module McdStore.

Record McdMeta : Type := {
  project_slug : string;
  sha256 : string;
  updated_at : string
}.

(** The directory of the store: the text of each markdown file, and for
    each metadata file what [JSON.parse] gives for it; a metadata file that
    does not parse is as good as missing. Both by path relative to the
    directory. *)
Record Files : Type := {
  documents : gmap string string;
  metadata : gmap string Value
}.

Definition mcdPath (projectSlug : string) : string := projectSlug +:+ ".md".

Definition metaPath (projectSlug : string) : string :=
  projectSlug +:+ ".meta.json".

(** What [JSON.parse] gives back for the [JSON.stringify] of a [McdMeta]. *)
Definition metaJson (meta : McdMeta) : Value :=
  VObj [("project_slug", VStr (project_slug meta));
        ("sha256", VStr (sha256 meta));
        ("updated_at", VStr (updated_at meta))].

(** [typeof persisted?.[key] === 'string' ? persisted[key] : fallback]. *)
Definition stringField (persisted : option Value) (key fallback : string)
  : string :=
  match persisted with
  | Some (VObj es) =>
      match Js.prop key es with
      | Some (VStr s) => s
      | _ => fallback
      end
  | _ => fallback
  end.

Section Store.

(** The hexadecimal SHA-256 digest of a text. *)
Variable digest : string → string.

Variable files : Files.

(** [get]; [None] is the rejection of [readFile] on the markdown file,
    which is not caught. [now] is [new Date().toISOString()]. *)
Definition get (now : string) (projectSlug : string)
  : option (string * McdMeta) :=
  match documents files !! mcdPath projectSlug with
  | None => None
  | Some markdown =>
      let computed := digest markdown in
      let persisted := metadata files !! metaPath projectSlug in
      Some (markdown,
            {| project_slug := projectSlug;
               sha256 := stringField persisted "sha256" computed;
               updated_at := stringField persisted "updated_at" now |})
  end.

Definition put (now : string) (projectSlug markdown : string)
  : Files * McdMeta :=
  let meta := {| project_slug := projectSlug;
                 sha256 := digest markdown;
                 updated_at := now |} in
  ({| documents := <[mcdPath projectSlug := markdown]> (documents files);
      metadata := <[metaPath projectSlug := metaJson meta]> (metadata files) |},
   meta).

End Store.

End McdStore.

(** * Vocabulary of the specification *)

(** ** Profile graphs *)

Module ProfileSpec.
Import ProfileStore.

Section Graph.

Variable pathJoin : list string → string.
Variable baseDir : string.
Variable files : gmap string Value.

Local Abbreviation load := (loadProfile pathJoin baseDir files).

(** [d] inherits from [a]: the profile stored for [d] names [a] in a
    relation the traversal follows. The ancestors of [d] are what
    [tc inheritsFrom d] reaches. *)
Definition inheritsFrom (d a : string) : Prop :=
  ∃ p, load d = Ok p ∧ a ∈ inheritTargets (profile p).

Definition reachable (entries : list string) (x : string) : Prop :=
  ∃ e, e ∈ entries ∧ rtc inheritsFrom e x.

(** No inheritance cycle can be reached from the entries. *)
Definition acyclicFrom (entries : list string) : Prop :=
  ∀ x, reachable entries x → ¬ tc inheritsFrom x x.

(** Every profile the entries reach is stored and parses as an object. *)
Definition closedFrom (entries : list string) : Prop :=
  ∀ x, reachable entries x → ∃ p, load x = Ok p.

(** The identifiers a traversal from [entries] can meet. *)
Definition universe (entries : list string) : gset string :=
  list_to_set entries
  ∪ list_to_set (flat_map (λ kv, inheritTargets kv.2) (map_to_list files)).

(** A depth no traversal from [entries] exceeds. *)
Definition enoughFuel (entries : list string) : nat :=
  S (size (universe entries)).

(** Every profile of the list comes after all it inherits from. *)
Definition ordered (l : list ResolvedProfile) : Prop :=
  ∀ j p t, l !! j = Some p → t ∈ inheritTargets (profile p) →
    ∃ i q, i < j ∧ l !! i = Some q ∧ id q = t.

Definition loaded (l : list ResolvedProfile) : Prop :=
  ∀ p, p ∈ l → load (id p) = Ok p.

(** Checkable certificates for a concrete store: [nodes] is closed under
    the edges and holds the entries; [ranks] gives every node a rank above
    the ranks of what it inherits from. *)
Definition closedUnder (nodes entries : list string) : bool :=
  forallb (λ e, bool_decide (e ∈ nodes)) entries
  && forallb (λ d, match load d with
                   | Ok p => forallb (λ t, bool_decide (t ∈ nodes))
                               (inheritTargets (profile p))
                   | Err _ => false
                   end) nodes.

Definition decreasing (ranks : list (string * nat)) : bool :=
  forallb (λ dr, match load dr.1 with
                 | Ok p => forallb (λ t, match Js.prop t ranks with
                                         | Some r => r <? dr.2
                                         | None => false
                                         end) (inheritTargets (profile p))
                 | Err _ => false
                 end) ranks.

(** What holds of the traversal state between two visits. *)
Record invariant (st : State) : Prop := {
  inv_nodup : NoDup (id <$> resolved st);
  inv_visited : ∀ x, x ∈ visited st ↔ x ∈ id <$> resolved st;
  inv_disjoint : visiting st ## visited st;
  inv_ordered : ordered (resolved st);
  inv_loaded : loaded (resolved st)
}.

(** What a successful visit of [i] from [st] establishes. *)
Definition visitedFrom (st : State) (i : string) (st' : State) : Prop :=
  invariant st' ∧ visiting st' = visiting st ∧ visited st ⊆ visited st'
  ∧ i ∈ visited st'.

End Graph.

End ProfileSpec.

(** ** Template versions *)

Module TemplateSpec.
Import TemplateStore.

(** The store holds a file for version [v] of [templateId], as
    [listTemplateVersions] sees it. *)
Definition storedVersion (files : gmap string Document) (templateId : string)
    (v : Z) : Prop :=
  ∃ name, name ∈ readdir files ∧ parseFilename name = Some (templateId, v).


End TemplateSpec.

(** ** Error messages *)

Module InstanceSpec.



End InstanceSpec.

(** ** Templates as text and placeholders *)

Module SubstitutionSpec.
Import TaskExecutor.

Inductive Token : Type :=
  | Text (s : string)
  | Hole (name : string).

Definition tokenText (t : Token) : string :=
  match t with
  | Text s => s
  | Hole name => placeholder name
  end.

(** The template text a list of tokens stands for. *)
Definition flatten (ts : list Token) : string :=
  foldr (λ t rest, tokenText t +:+ rest) "" ts.

Definition braceFree (s : string) : bool :=
  negb (Js.includesChar "{" s) && negb (Js.includesChar "}" s).

Definition openFree (s : string) : bool := negb (Js.includesChar "{" s).

Definition dollarFree (s : string) : bool := negb (Js.includesChar "$" s).

(** Every opening brace of the template opens a placeholder, whose name
    holds no brace. *)
Definition wellFormed (ts : list Token) : bool :=
  forallb (λ t, match t with Text s => openFree s | Hole n => braceFree n end) ts.

(** The non-empty segments of a path that hold neither [:] nor [?]. *)
Definition meaningfulSegments (path : string) : list string :=
  filter (λ s, negb (String.eqb s "") && negb (Js.includesChar ":" s)
               && negb (Js.includesChar "?" s) = true)
         (Js.split "/" path).

Section Rendering.

Variable JSON_stringify : Value → string.

(** Keys that hold no brace, and texts put in place of their
    placeholders that hold no opening brace and no dollar sign. *)
Definition plainVars (vars : list (string * Value)) : bool :=
  forallb (λ kv, braceFree kv.1
                 && openFree (replacementOf JSON_stringify kv.2)
                 && dollarFree (replacementOf JSON_stringify kv.2)) vars.

(** What the specification asks of a token: a placeholder whose name is a
    variable becomes that value's rendering, anything else stays. *)
Definition fill (vars : list (string * Value)) (t : Token) : string :=
  match t with
  | Text s => s
  | Hole name =>
      match Js.prop name vars with
      | Some v => replacementOf JSON_stringify v
      | None => placeholder name
      end
  end.

(** The substitution of the specification: every token filled at once
    from the same variables. *)
Definition substituteSimultaneously (vars : list (string * Value))
    (ts : list Token) : string :=
  foldr (λ t rest, fill vars t +:+ rest) "" ts.

End Rendering.

(** One pass of the loop of [substituteVariables], on tokens. *)
Definition plug (key replacement : string) (t : Token) : Token :=
  match t with
  | Hole name => if String.eqb name key then Text replacement else t
  | Text _ => t
  end.

End SubstitutionSpec.

(** ** Histories of the plans directory *)

Module ExecutorSpec.
Import TaskExecutor.

Section Steps.

Variable JSON_stringify : Value → string.
Variable pathJoin : list string → string.
Variable profilesDir : string.

(** One write to the plans directory: an [executeTask], or a [prepareTask]
    whose fresh identifier names no stored plan, the other stores being
    whatever they are at that time. *)
Inductive planStep : relation (gmap string ExecutionPlan) :=
  | step_execute plans planId :
      planStep plans (executeTask plans planId).1
  | step_prepare plans profiles templates instances fuel planId now
        projectSlug instanceId plans' outcome :
      plans !! planPath planId = None →
      prepareTask JSON_stringify pathJoin profilesDir profiles templates
        instances plans fuel planId now projectSlug instanceId
      = Some (plans', outcome) →
      planStep plans plans'.

End Steps.

End ExecutorSpec.

(** * Sample stores *)

Module Samples.

Definition inherits (target : string) : Value :=
  VObj [("target", VStr target); ("type", VStr "inherits")].

Definition profileDoc (description : string) (parents : list string) : Value :=
  VObj [("description", VStr description);
        ("relations", VArr (map inherits parents))].

Definition pathJoin : list string → string := Js.join "/".
Definition profilesDir : string := "profiles/domains".

(** A inherits B and C; B and C both inherit D. *)
Definition diamond : gmap string Value :=
  list_to_map
    [("profiles/domains/a.yaml", profileDoc "A" ["b"; "c"]);
     ("profiles/domains/b.yaml", profileDoc "B" ["d"]);
     ("profiles/domains/c.yaml", profileDoc "C" ["d"]);
     ("profiles/domains/d.yaml", VObj [("description", VStr "D")])].

(** A inherits B, B inherits C, C inherits A. *)
Definition triangle : gmap string Value :=
  list_to_map
    [("profiles/domains/a.yaml", profileDoc "A" ["b"]);
     ("profiles/domains/b.yaml", profileDoc "B" ["c"]);
     ("profiles/domains/c.yaml", profileDoc "C" ["a"])].

Definition createFile : TemplateStore.TaskTemplate :=
  {| TemplateStore.id := "t"; TemplateStore.version := 1;
     TemplateStore.description := "Create a file";
     TemplateStore.inputs_schema :=
       [("type", VStr "object");
        ("required", VArr [VStr "name"]);
        ("properties",
         VObj [("name", VObj [("type", VStr "string")]);
               ("size", VObj [("type", VStr "integer")])])];
     TemplateStore.outputs_schema := [("type", VStr "object")];
     TemplateStore.steps :=
       [{| TemplateStore.step_id := "s1";
           TemplateStore.instruction := "Create {name}" |}];
     TemplateStore.verification := None;
     TemplateStore.domain_profiles_default := None;
     TemplateStore.mcd_selectors := None; TemplateStore.active := None;
     TemplateStore.deprecated := None; TemplateStore.deprecated_at := None;
     TemplateStore.deprecated_reason := None; TemplateStore.extra := [] |}.

Definition createFile3 : TemplateStore.TaskTemplate :=
  {| TemplateStore.id := "t"; TemplateStore.version := 3;
     TemplateStore.description := "Create a file, then check it";
     TemplateStore.inputs_schema := TemplateStore.inputs_schema createFile;
     TemplateStore.outputs_schema := TemplateStore.outputs_schema createFile;
     TemplateStore.steps := TemplateStore.steps createFile;
     TemplateStore.verification :=
       Some [{| TemplateStore.verify_id := "v1";
                TemplateStore.command := "test -f {name}" |}];
     TemplateStore.domain_profiles_default := None;
     TemplateStore.mcd_selectors := None; TemplateStore.active := None;
     TemplateStore.deprecated := None; TemplateStore.deprecated_at := None;
     TemplateStore.deprecated_reason := None; TemplateStore.extra := [] |}.


(** A stand-in for the yaml library in the examples. It writes a template
    as its description and reads that text back as the one template it
    knows; any other text makes it throw. *)
Definition yamlStringify (t : TemplateStore.TaskTemplate) : string :=
  TemplateStore.description t.

Definition yamlParse (known : TemplateStore.TaskTemplate) (text : string)
  : TemplateStore.Document :=
  if String.eqb text (TemplateStore.description known)
  then TemplateStore.TemplateDoc known
  else TemplateStore.Unparsable "YAMLParseError".

(** Versions 1 and 3 of template [t]; there is no version 2. *)
Definition templates : gmap string TemplateStore.Document :=
  list_to_map [("t@1.yaml", TemplateStore.TemplateDoc createFile);
               ("t@3.yaml", TemplateStore.TemplateDoc createFile3)].

(** A stand-in for the Ajv library: it reads the required names and the
    typed properties off the schema and validates as Ajv does on flat
    schemas. *)
Definition flatAjv : Schema.Ajv := λ options schema,
  let required :=
    match Js.prop "required" schema with
    | Some (VArr names) => ProfileStore.stringItems names
    | _ => []
    end in
  let properties :=
    match Js.prop "properties" schema with
    | Some (VObj ps) =>
        omap (λ ks, match ks.2 with
                    | VObj s => match Js.prop "type" s with
                                | Some (VStr type) => Some (ks.1, type)
                                | _ => None
                                end
                    | _ => None
                    end) ps
    | _ => []
    end in
  Ok (Schema.flatVerdict options required properties).

Definition now : string := "2025-12-13T00:00:00.000Z".

(** An instance of [t@1] with inputs [{name: "todo.txt"}]. *)
Definition todoInstance : InstanceStore.TaskInstance :=
  {| InstanceStore.instance_id := "i-1";
     InstanceStore.project_slug := "demo";
     InstanceStore.template_id := "t";
     InstanceStore.template_version := 1;
     InstanceStore.inputs := [("name", VStr "todo.txt")];
     InstanceStore.mcd_hash := "abc123";
     InstanceStore.domain_profiles := [];
     InstanceStore.created_at := now;
     InstanceStore.status := Some InstanceStore.pending |}.

Definition instances : gmap string InstanceStore.TaskInstance :=
  {[ "demo/i-1.json" := todoInstance ]}.

(** A rendering of compound values for the examples, none of which has
    one. *)
Definition noJson : Value → string := λ _, "".

Definition todoPlan : TaskExecutor.ExecutionPlan :=
  {| TaskExecutor.plan_id := "p-1";
     TaskExecutor.instance_id := "i-1";
     TaskExecutor.project_slug := "demo";
     TaskExecutor.template_id := "t";
     TaskExecutor.template_version := 1;
     TaskExecutor.created_at := now;
     TaskExecutor.steps :=
       [{| TemplateStore.step_id := "s1";
           TemplateStore.instruction := "Create todo.txt" |}];
     TaskExecutor.verification := [];
     TaskExecutor.domain_framework := None;
     TaskExecutor.status := TaskExecutor.pending |}.

Definition plans : gmap string TaskExecutor.ExecutionPlan :=
  {[ "p-1.yaml" := todoPlan ]}.

(** An instance of [t@1] that names the domain profile [d]. *)
Definition profiledInstance : InstanceStore.TaskInstance :=
  {| InstanceStore.instance_id := "i-2";
     InstanceStore.project_slug := "demo";
     InstanceStore.template_id := "t";
     InstanceStore.template_version := 1;
     InstanceStore.inputs := [("name", VStr "todo.txt")];
     InstanceStore.mcd_hash := "abc123";
     InstanceStore.domain_profiles := ["d"];
     InstanceStore.created_at := now;
     InstanceStore.status := Some InstanceStore.pending |}.

End Samples.

(** * Facts about the built-ins *)

Module JsFacts.
Import SubstitutionSpec.

Lemma app_cons a s t : String a s +:+ t = String a (s +:+ t).
Proof. done. Qed.

Lemma app_nil_l s : "" +:+ s = s.
Proof. done. Qed.

Lemma app_nil_r s : s +:+ "" = s.
Proof. induction s as [|a s IH]; [done|]. by rewrite app_cons, IH. Qed.

Lemma app_assoc' s t u : (s +:+ t) +:+ u = s +:+ t +:+ u.
Proof. induction s as [|a s IH]; [done|]. by rewrite !app_cons, IH. Qed.

Lemma includesChar_app c s t :
  Js.includesChar c (s +:+ t) = Js.includesChar c s || Js.includesChar c t.
Proof.
  induction s as [|a s IH]; [done|]. rewrite app_cons. simpl.
  destruct (Ascii.eqb a c); [done|]. exact IH.
Qed.

Lemma startsWith_app p rest : Js.startsWith p (p +:+ rest) = true.
Proof.
  induction p as [|a p IH]; [done|]. rewrite app_cons. simpl.
  by rewrite Ascii.eqb_refl.
Qed.

Lemma getSubstitution_plain m b a r :
  dollarFree r = true → Js.getSubstitution m b a r = r.
Proof.
  unfold dollarFree. induction r as [|c r IH]; [done|]. simpl.
  destruct (Ascii.eqb c "$") eqn:Hc; [done|]. intros Hr.
  destruct r as [|d r]; [done|]. by rewrite IH.
Qed.

(** Scanning past text that cannot start a match, and past the rest of a
    match, whatever the scan does with what follows. *)
Lemma replaceAllFrom_text p r s rest out :
  Js.includesChar "{" s = false →
  (∀ before, Js.replaceAllFrom (String "{" p) r before 0 rest = out) →
  ∀ before, Js.replaceAllFrom (String "{" p) r before 0 (s +:+ rest) = s +:+ out.
Proof.
  intros Hs Hrest. induction s as [|a s IH]; intros before; [apply Hrest|].
  rewrite !app_cons. cbn [Js.includesChar] in Hs.
  cbn [Js.replaceAllFrom Js.startsWith].
  destruct (Ascii.eqb a "{") eqn:Ha; [done|].
  rewrite Ascii.eqb_sym, Ha. by rewrite IH.
Qed.

Lemma replaceAllFrom_skip pattern r s rest out :
  (∀ before, Js.replaceAllFrom pattern r before 0 rest = out) →
  ∀ before, Js.replaceAllFrom pattern r before (String.length s) (s +:+ rest) = out.
Proof.
  intros Hrest. induction s as [|a s IH]; intros before.
  - simpl. destruct rest; apply Hrest.
  - rewrite app_cons. simpl. apply IH.
Qed.

Lemma prop_elem_of {V} k (o : list (string * V)) v :
  Js.prop k o = Some v → (k, v) ∈ o.
Proof.
  induction o as [|[k' v'] o IH]; simpl; [done|].
  destruct (String.eqb_spec k' k) as [->|].
  - intros [= ->]. left.
  - intros Hk. right. auto.
Qed.

Lemma prop_setProp {V} k k' (v : V) o :
  Js.prop k' (Js.setProp k v o) = if String.eqb k k' then Some v else Js.prop k' o.
Proof.
  induction o as [|[k0 v0] o IH]; simpl.
  - by destruct (String.eqb k k').
  - destruct (String.eqb_spec k0 k) as [->|Hne]; simpl.
    + by destruct (String.eqb k k').
    + rewrite IH. destruct (String.eqb_spec k0 k') as [->|]; [|done].
      destruct (String.eqb_spec k k'); [congruence|done].
Qed.

Lemma setProp_setProp {V} k (v v' : V) o :
  Js.setProp k v (Js.setProp k v' o) = Js.setProp k v o.
Proof.
  induction o as [|[k0 v0] o IH]; simpl.
  - by rewrite String.eqb_refl.
  - destruct (String.eqb_spec k0 k) as [->|Hne]; simpl.
    + by rewrite String.eqb_refl.
    + destruct (String.eqb_spec k0 k); [done|]. by rewrite IH.
Qed.

Lemma split_includes c sep s piece :
  piece ∈ Js.split sep s → Js.includesChar c piece = true →
  Js.includesChar c s = true.
Proof.
  revert piece. induction s as [|a s IH]; intros piece; simpl.
  - by intros ->%list_elem_of_singleton.
  - destruct (Ascii.eqb a sep).
    + intros [->|Hp]%elem_of_cons Hc; [done|].
      rewrite (IH _ Hp Hc). by destruct (Ascii.eqb a c).
    + destruct (Js.split sep s) as [|h t] eqn:Hsplit.
      * intros ->%list_elem_of_singleton. simpl.
        by destruct (Ascii.eqb a c).
      * intros [->|Hp]%elem_of_cons; simpl.
        -- destruct (Ascii.eqb a c); [done|]. apply IH. left.
        -- intros Hc. destruct (Ascii.eqb a c); [done|]. apply (IH piece); [by right|done].
Qed.

End JsFacts.

(** * Profile resolution *)

Module ProfileFacts.
Import ProfileStore JsFacts.

Section Graph.

Variable pathJoin : list string → string.
Variable baseDir : string.
Variable files : gmap string Value.

Local Abbreviation load := (loadProfile pathJoin baseDir files).
Local Abbreviation visit := (ProfileStore.visit pathJoin baseDir files).
Local Abbreviation resolveProfiles :=
  (ProfileStore.resolveProfiles pathJoin baseDir files).
Local Abbreviation inheritsFrom := (ProfileSpec.inheritsFrom pathJoin baseDir files).
Local Abbreviation reachable := (ProfileSpec.reachable pathJoin baseDir files).
Local Abbreviation acyclicFrom := (ProfileSpec.acyclicFrom pathJoin baseDir files).
Local Abbreviation closedFrom := (ProfileSpec.closedFrom pathJoin baseDir files).
Local Abbreviation universe := (ProfileSpec.universe files).
Local Abbreviation enoughFuel := (ProfileSpec.enoughFuel files).
Local Abbreviation ordered := ProfileSpec.ordered.
Local Abbreviation loaded := (ProfileSpec.loaded pathJoin baseDir files).
Local Abbreviation closedUnder := (ProfileSpec.closedUnder pathJoin baseDir files).
Local Abbreviation decreasing := (ProfileSpec.decreasing pathJoin baseDir files).
Local Abbreviation invariant := (ProfileSpec.invariant pathJoin baseDir files).
Local Abbreviation visitedFrom := (ProfileSpec.visitedFrom pathJoin baseDir files).


Lemma forEach_mono (f g : string → State → option (Result Error State)) l st r :
  (∀ x s r', f x s = Some r' → g x s = Some r') →
  forEach f l st = Some r → forEach g l st = Some r.
Proof.
  intros Hfg. revert st. induction l as [|x l IH]; intros st; simpl; [done|].
  destruct (f x st) as [[s'|e]|] eqn:Hf; [| |done].
  - rewrite (Hfg _ _ _ Hf). apply IH.
  - rewrite (Hfg _ _ _ Hf). done.
Qed.

Lemma visit_fuel_mono n m i st r :
  visit n i st = Some r → n ≤ m → visit m i st = Some r.
Proof.
  revert m i st r. induction n as [|n IH]; intros m i st r; [done|].
  intros Hv Hle. destruct m as [|m]; [lia|]. simpl in *.
  repeat case_decide; try done.
  destruct (load i) as [p|e]; [|done].
  destruct (forEach (visit n) _ _) as [r'|] eqn:Hf; [|done].
  erewrite forEach_mono; [exact Hv| |exact Hf].
  intros x s r'' Hx. apply IH; [done|lia].
Qed.

Lemma forEach_ok (P : State → Prop) f l st st' :
  P st →
  (∀ x s s', x ∈ l → P s → f x s = Some (Ok s') → P s') →
  forEach f l st = Some (Ok st') → P st'.
Proof.
  revert st. induction l as [|x l IH]; intros st HP Hstep; simpl.
  - by intros [= <-].
  - destruct (f x st) as [[s'|e]|] eqn:Hf; [|done..].
    apply IH.
    + eapply Hstep; [left|done..].
    + intros y s1 s2 Hy. apply Hstep. by right.
Qed.

Lemma forEach_failing (P : State → Prop) f l st (r : option (Result Error State)) :
  P st →
  (∀ x s s', x ∈ l → P s → f x s = Some (Ok s') → P s') →
  forEach f l st = r → (∀ s, r ≠ Some (Ok s)) →
  ∃ x s, x ∈ l ∧ P s ∧ f x s = r.
Proof.
  revert st. induction l as [|x l IH]; intros st HP Hstep; simpl.
  - intros <- Hr. by destruct (Hr st).
  - destruct (f x st) as [[s'|e]|] eqn:Hf.
    + intros Hfe Hr. destruct (IH s') as (y & s & Hy & Hs & Hfy); [| |done..|].
      * eapply Hstep; [left|done..].
      * intros z s1 s2 Hz. apply Hstep. by right.
      * exists y, s. split_and!; [by right|done..].
    + intros <- _. exists x, st. split_and!; [left|done..].
    + intros <- _. exists x, st. split_and!; [left|done..].
Qed.

Lemma visit_visiting n i st st' :
  visit n i st = Some (Ok st') → visiting st' = visiting st.
Proof.
  revert i st st'. induction n as [|n IH]; intros i st st'; [done|]. simpl.
  case_decide; [by intros [= <-]|]. case_decide; [done|].
  destruct (load i) as [p|e]; [|done].
  destruct (forEach (visit n) _ _) as [[st2|e]|] eqn:Hf; [|done..].
  intros [= <-]. simpl.
  assert (visiting st2 = {[i]} ∪ visiting st) as ->; [|set_solver].
  eapply (forEach_ok (λ s, visiting s = {[i]} ∪ visiting st)); [| |exact Hf]; [done|].
  intros x s s' _ Hs Hx. by rewrite (IH _ _ _ Hx).
Qed.

Lemma load_profile i p : load i = Ok p → id p = i ∧ files !! filePath p = Some (profile p).
Proof.
  unfold loadProfile. destruct (files !! _) as [v|] eqn:Hv; [|done].
  destruct (isRecord v); [|done]. by intros [= <-].
Qed.

Lemma inheritsFrom_universe entries d a :
  inheritsFrom d a → a ∈ universe entries.
Proof.
  intros (p & Hp & Ha). apply load_profile in Hp as [_ Hf].
  unfold ProfileSpec.universe.
  apply elem_of_union_r, elem_of_list_to_set, list_elem_of_In, in_flat_map.
  exists (filePath p, profile p). split; [|by apply list_elem_of_In].
  by apply list_elem_of_In, elem_of_map_to_list.
Qed.

Lemma visit_terminates entries n i st :
  i ∈ universe entries → visiting st ⊆ universe entries →
  size (universe entries ∖ visiting st) < n →
  is_Some (visit n i st).
Proof.
  revert i st. induction n as [|n IH]; intros i st Hi Hsub Hsize; [lia|].
  simpl. case_decide; [done|]. case_decide as Hvis; [done|].
  destruct (load i) as [p|e] eqn:Hload; [|done].
  set (st1 := {| resolved := resolved st; visiting := {[i]} ∪ visiting st;
                 visited := visited st |}).
  destruct (forEach (visit n) (inheritTargets (profile p)) st1) as [[s|e]|] eqn:Hf;
    [done..|].
  exfalso.
  destruct (forEach_failing (λ s, visiting s = visiting st1)
              (visit n) (inheritTargets (profile p)) st1 None)
    as (t & s & Ht & Hs & Hnone); [done| |done..|].
  { intros x s s' _ Hs Hx. by rewrite (visit_visiting _ _ _ _ Hx). }
  destruct (IH t s) as [r Hr]; [| | |congruence].
  - eapply inheritsFrom_universe. by exists p.
  - rewrite Hs. simpl. set_solver.
  - rewrite Hs. simpl.
    assert (size (universe entries ∖ ({[i]} ∪ visiting st))
            < size (universe entries ∖ visiting st)); [|lia].
    apply subset_size. set_solver.
Qed.

Lemma ordered_snoc l p :
  ordered l → (∀ t, t ∈ inheritTargets (profile p) → t ∈ id <$> l) →
  ordered (l ++ [p]).
Proof.
  intros Hord Hp j q t Hj Ht.
  destruct (decide (j < length l)) as [Hlt|Hge].
  - rewrite lookup_app_l in Hj by done.
    destruct (Hord j q t Hj Ht) as (i & q' & Hi & Hq' & Hid).
    exists i, q'. split_and!; [done| |done]. rewrite lookup_app_l; [done|lia].
  - rewrite lookup_app_r in Hj by lia.
    apply list_lookup_singleton_Some in Hj as [Hj ->].
    apply Hp, list_elem_of_fmap in Ht as (q' & -> & Hq').
    apply list_elem_of_lookup in Hq' as [i Hi].
    exists i, q'. split_and!; [|by apply lookup_app_l_Some|done].
    apply lookup_lt_Some in Hi. lia.
Qed.

Lemma invariant_initial : invariant initial.
Proof.
  split; simpl.
  - constructor.
  - set_solver.
  - set_solver.
  - intros j p t Hj. done.
  - intros p Hp. by apply elem_of_nil in Hp.
Qed.

(** What a successful visit of [i] from [st] establishes. *)
Lemma forEach_visited f l st st' :
  (∀ x s s', invariant s → f x s = Some (Ok s') → visitedFrom s x s') →
  invariant st → forEach f l st = Some (Ok st') →
  invariant st' ∧ visiting st' = visiting st ∧ visited st ⊆ visited st'
  ∧ ∀ t, t ∈ l → t ∈ visited st'.
Proof.
  intros Hf. revert st. induction l as [|x l IH]; intros st Hinv; simpl.
  - intros [= <-]. split_and!; [done..|]. intros t Ht. by apply elem_of_nil in Ht.
  - destruct (f x st) as [[s|e]|] eqn:Hx; [|done..]. intros Hrest.
    destruct (Hf _ _ _ Hinv Hx) as (Hs & Hving & Hsub & Hin).
    destruct (IH s Hs Hrest) as (Hinv' & Hving' & Hsub' & Hall).
    split_and!; [done|congruence|set_solver|].
    intros t [->|Ht]%elem_of_cons; [set_solver|auto].
Qed.

Lemma visit_visited n i st st' :
  invariant st → visit n i st = Some (Ok st') → visitedFrom st i st'.
Proof.
  revert i st st'. induction n as [|n IH]; intros i st st' Hinv; [done|]. simpl.
  case_decide as Hdone; [by intros [= <-]|]. case_decide as Hving; [done|].
  destruct (load i) as [p|e] eqn:Hload; [|done].
  set (st1 := {| resolved := resolved st; visiting := {[i]} ∪ visiting st;
                 visited := visited st |}).
  destruct (forEach (visit n) _ st1) as [[st2|e]|] eqn:Hf; [|done..].
  intros [= <-].
  assert (invariant st1) as Hinv1.
  { destruct Hinv. split; simpl; [done..| |done|done]. set_solver. }
  destruct (forEach_visited _ _ _ _ (λ x s s', IH x s s') Hinv1 Hf)
    as ([Hnd Hvis Hdisj Hord Hlo] & Hving2 & Hsub & Hall).
  simpl in Hving2, Hsub.
  destruct (load_profile _ _ Hload) as [Hid _].
  assert (i ∉ id <$> resolved st2) as Hfresh.
  { rewrite <-Hvis. set_solver. }
  split_and!; [split|..]; simpl.
  - rewrite fmap_app. apply NoDup_app. split_and!; [done| |apply NoDup_singleton].
    intros x Hx ->%list_elem_of_singleton. by rewrite Hid in Hx.
  - intros x. rewrite fmap_app, elem_of_app, elem_of_union, Hvis. simpl.
    rewrite Hid. set_solver.
  - set_solver.
  - apply ordered_snoc; [done|]. intros t Ht. by apply Hvis, Hall.
  - intros q [Hq| ->%list_elem_of_singleton]%elem_of_app; [by apply Hlo|].
    by rewrite Hid.
  - set_solver.
  - set_solver.
  - set_solver.
Qed.

(** Why a visit throws: it closed a cycle, or a profile it reached did not
    load. *)
Lemma visit_throws n i st e :
  (∀ v, v ∈ visiting st → tc inheritsFrom v i) →
  visit n i st = Some (Err e) →
  (∃ x, e = CycleDetected x ∧ tc inheritsFrom x x ∧ rtc inheritsFrom i x)
  ∨ (∃ x, rtc inheritsFrom i x ∧ load x = Err e).
Proof.
  revert i st. induction n as [|n IH]; intros i st Hpath; [done|]. simpl.
  case_decide as Hdone; [done|]. case_decide as Hving.
  { intros [= <-]. left. exists i. split_and!; [done|by apply Hpath|done]. }
  destruct (load i) as [p|e'] eqn:Hload.
  2:{ intros [= <-]. right. by exists i. }
  set (st1 := {| resolved := resolved st; visiting := {[i]} ∪ visiting st;
                 visited := visited st |}).
  destruct (forEach (visit n) _ st1) as [[st2|e']|] eqn:Hf; [done| |done].
  intros [= ->].
  destruct (forEach_failing (λ s, visiting s = visiting st1)
              (visit n) (inheritTargets (profile p)) st1 (Some (Err e)))
    as (t & s & Ht & Hs & Hthrow); [done| |done..|].
  { intros x s s' _ Hs Hx. by rewrite (visit_visiting _ _ _ _ Hx). }
  assert (inheritsFrom i t) as Hit by (by exists p).
  destruct (IH t s) as [(x & -> & Hcyc & Hreach)|(x & Hreach & Hx)]; [|done|..].
  - intros v. rewrite Hs. simpl. intros [ ->%elem_of_singleton|Hv]%elem_of_union.
    + by apply tc_once.
    + eapply tc_r; [by apply Hpath|done].
  - left. exists x. split_and!; [done..|]. by eapply rtc_l.
  - right. exists x. split; [by eapply rtc_l|done].
Qed.

Lemma resolveProfiles_fuel_mono n m entries r :
  resolveProfiles n entries = Some r → n ≤ m → resolveProfiles m entries = Some r.
Proof.
  unfold ProfileStore.resolveProfiles. intros Hr Hle.
  destruct (forEach (visit n) entries initial) as [r'|] eqn:Hf; [|done].
  erewrite forEach_mono; [exact Hr| |exact Hf].
  intros x s r'' Hx. by eapply visit_fuel_mono.
Qed.

Lemma resolveProfiles_terminates entries :
  is_Some (resolveProfiles (enoughFuel entries) entries).
Proof.
  unfold ProfileStore.resolveProfiles.
  destruct (forEach (visit (enoughFuel entries)) entries initial)
    as [[s|e]|] eqn:Hf; [done..|].
  destruct (forEach_failing (λ s, visiting s = ∅)
              (visit (enoughFuel entries)) entries initial None)
    as (t & s & Ht & Hs & Hnone); [done| |done..|].
  { intros x s s' _ Hs Hx. by rewrite (visit_visiting _ _ _ _ Hx). }
  destruct (visit_terminates entries (enoughFuel entries) t s) as [r Hr];
    [| | |congruence].
  - unfold ProfileSpec.universe. apply elem_of_union_l. by apply elem_of_list_to_set.
  - rewrite Hs. set_solver.
  - rewrite Hs, difference_empty_L. unfold ProfileSpec.enoughFuel. lia.
Qed.

Lemma resolveProfiles_stable entries :
  ∃ r, ∀ fuel, enoughFuel entries ≤ fuel → resolveProfiles fuel entries = Some r.
Proof.
  destruct (resolveProfiles_terminates entries) as [r Hr].
  exists r. intros fuel Hfuel. by eapply resolveProfiles_fuel_mono.
Qed.

Lemma resolveProfiles_ok fuel entries out :
  resolveProfiles fuel entries = Some (Ok out) →
  NoDup (id <$> out) ∧ ordered out ∧ loaded out
  ∧ ∀ e, e ∈ entries → e ∈ id <$> out.
Proof.
  unfold ProfileStore.resolveProfiles.
  destruct (forEach (visit fuel) entries initial) as [[s|e]|] eqn:Hf; [|done..].
  intros [= <-].
  destruct (forEach_visited _ _ _ _ (visit_visited fuel) invariant_initial Hf)
    as ([Hnd Hvis Hdisj Hord Hlo] & _ & _ & Hall).
  split_and!; [done..|]. intros e He. by apply Hvis, Hall.
Qed.

Lemma resolveProfiles_throws fuel entries e :
  resolveProfiles fuel entries = Some (Err e) →
  (∃ x, e = CycleDetected x ∧ tc inheritsFrom x x ∧ reachable entries x)
  ∨ (∃ x, reachable entries x ∧ load x = Err e).
Proof.
  unfold ProfileStore.resolveProfiles.
  destruct (forEach (visit fuel) entries initial) as [[s|e']|] eqn:Hf; [done| |done].
  intros [= ->].
  destruct (forEach_failing (λ s, visiting s = ∅)
              (visit fuel) entries initial (Some (Err e)))
    as (t & s & Ht & Hs & Hthrow); [done| |done..|].
  { intros x s s' _ Hs Hx. by rewrite (visit_visiting _ _ _ _ Hx). }
  destruct (visit_throws fuel t s e) as [(x & -> & Hcyc & Hreach)|(x & Hreach & Hx)];
    [|done|..].
  - intros v. rewrite Hs. set_solver.
  - left. exists x. split_and!; [done..|]. by exists t.
  - right. exists x. split; [by exists t|done].
Qed.

Lemma ordered_ancestors out :
  ordered out → loaded out →
  ∀ d a, tc inheritsFrom d a →
  ∀ j p, out !! j = Some p → id p = d →
  ∃ i q, i < j ∧ out !! i = Some q ∧ id q = a.
Proof.
  intros Hord Hlo d a Hda.
  assert (∀ j p t, out !! j = Some p → inheritsFrom (id p) t →
          ∃ i q, i < j ∧ out !! i = Some q ∧ id q = t) as Hstep.
  { intros j p t Hj (p' & Hp' & Ht).
    rewrite (Hlo p) in Hp' by (by eapply list_elem_of_lookup_2).
    injection Hp' as <-. eauto. }
  induction Hda as [d a Hda|d m a Hdm _ IH]; intros j p Hj <-.
  - eauto.
  - destruct (Hstep _ _ _ Hj Hdm) as (i & q & Hi & Hq & Hid).
    destruct (IH _ _ Hq Hid) as (i' & q' & Hi' & Hq' & Hid').
    exists i', q'. split_and!; [lia|done..].
Qed.

Lemma reachable_resolved fuel entries out x :
  resolveProfiles fuel entries = Some (Ok out) →
  reachable entries x → x ∈ id <$> out.
Proof.
  intros (Hnd & Hord & Hlo & Hent)%resolveProfiles_ok (e & He & Hex).
  apply Hent in He. clear Hent.
  induction Hex as [e|e m x Hem _ IH]; [done|].
  apply IH. apply list_elem_of_fmap in He as (p & -> & Hp).
  apply list_elem_of_lookup in Hp as [j Hj].
  destruct (ordered_ancestors out Hord Hlo (id p) m (tc_once _ _ _ Hem) j p Hj eq_refl)
    as (i & q & _ & Hq & <-).
  apply list_elem_of_fmap. exists q. split; [done|]. by eapply list_elem_of_lookup_2.
Qed.

Lemma resolveProfiles_cycle_not_ok fuel entries out c :
  reachable entries c → tc inheritsFrom c c →
  resolveProfiles fuel entries ≠ Some (Ok out).
Proof.
  intros Hreach Hcyc Hok.
  pose proof (reachable_resolved _ _ _ _ Hok Hreach) as Hc.
  apply resolveProfiles_ok in Hok as (Hnd & Hord & Hlo & _).
  apply list_elem_of_fmap in Hc as (p & -> & Hp).
  apply list_elem_of_lookup in Hp as [j Hj].
  destruct (ordered_ancestors out Hord Hlo _ _ Hcyc j p Hj eq_refl)
    as (i & q & Hi & Hq & Hid).
  assert (i = j); [|lia].
  eapply NoDup_lookup; [exact Hnd| |]; rewrite list_lookup_fmap.
  - by rewrite Hq.
  - rewrite Hj. simpl. by rewrite Hid.
Qed.

(** C2. When no inheritance cycle can be reached from the entries and
    every profile they reach is stored, [resolveProfiles] returns, for every
    fuel from [enoughFuel] on, one list of profiles in which no identifier
    occurs twice, which holds every entry, and in which every ancestor of a
    profile stands at a strictly smaller index than the profile itself. *)
Theorem resolveProfiles_acyclic entries :
  acyclicFrom entries → closedFrom entries →
  ∃ out,
    (∀ fuel, enoughFuel entries ≤ fuel →
       resolveProfiles fuel entries = Some (Ok out))
    ∧ NoDup (id <$> out)
    ∧ (∀ e, e ∈ entries → e ∈ id <$> out)
    ∧ (∀ j d a, out !! j = Some d → tc inheritsFrom (id d) a →
         ∃ i p, i < j ∧ out !! i = Some p ∧ id p = a).
Proof.
  intros Hacyc Hclosed.
  destruct (resolveProfiles_stable entries) as [[out|e] Hr].
  - pose proof (Hr _ (le_n _)) as (Hnd & Hord & Hlo & Hent)%resolveProfiles_ok.
    exists out. split_and!; [done..|].
    intros j d a Hj Hda. by eapply ordered_ancestors.
  - exfalso.
    destruct (resolveProfiles_throws _ _ _ (Hr _ (le_n _)))
      as [(x & _ & Hcyc & Hreach)|(x & Hreach & Hx)].
    + by eapply Hacyc.
    + destruct (Hclosed x Hreach) as [p Hp]. congruence.
Qed.

(** C3. On every store and every list of entries [resolveProfiles] gives
    the same outcome for every fuel from [enoughFuel] on, so the traversal
    ends. When a profile on an inheritance cycle can be reached from an
    entry, that outcome is never a list; when moreover every profile the
    entries reach is stored, it is the error [CycleDetected x] for an
    identifier [x] that lies on a cycle and is reached from an entry. *)
Theorem resolveProfiles_cyclic entries :
  (∃ r, ∀ fuel, enoughFuel entries ≤ fuel → resolveProfiles fuel entries = Some r)
  ∧ ∀ c, reachable entries c → tc inheritsFrom c c →
      (∀ fuel out, resolveProfiles fuel entries ≠ Some (Ok out))
      ∧ (closedFrom entries →
         ∃ x, (∀ fuel, enoughFuel entries ≤ fuel →
                 resolveProfiles fuel entries = Some (Err (CycleDetected x)))
              ∧ tc inheritsFrom x x ∧ reachable entries x).
Proof.
  split; [apply resolveProfiles_stable|].
  intros c Hreach Hcyc. split.
  { intros fuel out. by eapply resolveProfiles_cycle_not_ok. }
  intros Hclosed.
  destruct (resolveProfiles_stable entries) as [[out|e] Hr].
  - exfalso. by eapply resolveProfiles_cycle_not_ok, (Hr _ (le_n _)).
  - destruct (resolveProfiles_throws _ _ _ (Hr _ (le_n _)))
      as [(x & -> & Hx & Hrx)|(x & Hrx & Hx)].
    + by exists x.
    + destruct (Hclosed x Hrx) as [p Hp]. congruence.
Qed.

Lemma closedUnder_sound nodes entries :
  closedUnder nodes entries = true →
  closedFrom entries ∧ ∀ x, reachable entries x → x ∈ nodes.
Proof.
  intros [Hent Hnodes]%andb_true_iff.
  rewrite forallb_forall in Hent. rewrite forallb_forall in Hnodes.
  assert (∀ x, reachable entries x → x ∈ nodes) as Hreach.
  { intros x (e & He & Hex).
    assert (e ∈ nodes) as Hin.
    { apply list_elem_of_In, Hent in He. by apply bool_decide_eq_true in He. }
    clear He. induction Hex as [e|e m x (p & Hp & Hm) _ IH]; [done|].
    apply IH. apply list_elem_of_In, Hnodes in Hin. rewrite Hp in Hin.
    rewrite forallb_forall in Hin. apply list_elem_of_In, Hin in Hm.
    by apply bool_decide_eq_true in Hm. }
  split; [|done]. intros x Hx%Hreach.
  apply list_elem_of_In, Hnodes in Hx. destruct (load x) as [p|]; [by exists p|done].
Qed.

Lemma decreasing_sound ranks entries :
  closedUnder ranks.*1 entries = true → decreasing ranks = true →
  acyclicFrom entries.
Proof.
  intros [_ Hreach]%closedUnder_sound Hdec. unfold ProfileSpec.decreasing in Hdec.
  rewrite forallb_forall in Hdec.
  assert (∀ x y, tc inheritsFrom x y → ∀ r, (x, r) ∈ ranks →
            ∃ r', Js.prop y ranks = Some r' ∧ r' < r) as Hless.
  { intros x y Hxy. induction Hxy as [x y (p & Hp & Hy)|x m y (p & Hp & Hm) _ IH];
      intros r Hr.
    - apply list_elem_of_In, Hdec in Hr. simpl in Hr. rewrite Hp in Hr.
      rewrite forallb_forall in Hr. apply list_elem_of_In, Hr in Hy.
      destruct (Js.prop y ranks) as [r'|]; [|done].
      exists r'. split; [done|]. by apply Nat.ltb_lt.
    - apply list_elem_of_In, Hdec in Hr. simpl in Hr. rewrite Hp in Hr.
      rewrite forallb_forall in Hr. apply list_elem_of_In, Hr in Hm.
      destruct (Js.prop m ranks) as [rm|] eqn:Hrm; [|done].
      apply Nat.ltb_lt in Hm.
      destruct (IH rm) as (r' & Hr' & Hlt); [by apply prop_elem_of|].
      exists r'. split; [done|lia]. }
  intros x Hx%Hreach Hcyc.
  apply list_elem_of_fmap in Hx as ([x' r] & -> & Hr). simpl in Hcyc.
  destruct (Hless _ _ Hcyc r Hr) as (r' & Hr' & Hlt).
  destruct (Hless _ _ Hcyc r' (prop_elem_of _ _ _ Hr')) as (r'' & Hr'' & Hlt').
  rewrite Hr' in Hr''. injection Hr'' as <-. lia.
Qed.


End Graph.


Import Samples.

Example compile_nothing : compileFrameworkPrompt [] = "".
Proof. reflexivity. Qed.

Example diamond_resolved :
  (λ r, match r with Some (Ok out) => Some (id <$> out) | _ => None end)
    (resolveProfiles pathJoin profilesDir diamond 5 ["a"])
  = Some ["d"; "b"; "c"; "a"].
Proof. vm_compute. reflexivity. Qed.

Example triangle_cycle :
  resolveProfiles pathJoin profilesDir triangle 5 ["a"]
  = Some (Err (CycleDetected "a")).
Proof. vm_compute. reflexivity. Qed.

Example diamond_two_entries :
  (λ r, match r with Some (Ok out) => Some (id <$> out) | _ => None end)
    (resolveProfiles pathJoin profilesDir diamond 5 ["b"; "a"])
  = Some ["d"; "b"; "c"; "a"].
Proof. vm_compute. reflexivity. Qed.

Example missing_profile :
  resolveProfiles pathJoin profilesDir diamond 5 ["a"; "zzz"]
  = Some (Err (ProfileNotFound "zzz")).
Proof. vm_compute. reflexivity. Qed.

Lemma resolveProfiles_acyclic_witness :
  ∃ out,
    resolveProfiles pathJoin profilesDir diamond 9 ["b"; "a"] = Some (Ok out)
    ∧ NoDup (id <$> out).
Proof.
  destruct (resolveProfiles_acyclic pathJoin profilesDir diamond ["b"; "a"])
    as (out & Hout & Hnd & _).
  - apply (decreasing_sound _ _ _ [("a", 3); ("b", 2); ("c", 2); ("d", 1)]);
      vm_compute; reflexivity.
  - apply (closedUnder_sound _ _ _ ["a"; "b"; "c"; "d"]). vm_compute. reflexivity.
  - exists out. split; [|exact Hnd]. apply Hout. vm_compute. lia.
Defined.

Lemma inheritsFrom_triangle_ab : ProfileSpec.inheritsFrom pathJoin profilesDir triangle "a" "b".
Proof.
  eexists. split; [vm_compute; reflexivity|].
  apply list_elem_of_In. vm_compute. by left.
Qed.
Lemma inheritsFrom_triangle_bc : ProfileSpec.inheritsFrom pathJoin profilesDir triangle "b" "c".
Proof.
  eexists. split; [vm_compute; reflexivity|].
  apply list_elem_of_In. vm_compute. by left.
Qed.
Lemma inheritsFrom_triangle_ca : ProfileSpec.inheritsFrom pathJoin profilesDir triangle "c" "a".
Proof.
  eexists. split; [vm_compute; reflexivity|].
  apply list_elem_of_In. vm_compute. by left.
Qed.

Lemma resolveProfiles_cyclic_witness :
  ∃ x, resolveProfiles pathJoin profilesDir triangle 9 ["a"]
       = Some (Err (CycleDetected x)).
Proof.
  destruct (resolveProfiles_cyclic pathJoin profilesDir triangle ["a"]) as [_ H].
  destruct (H "a") as [_ Hc].
  - exists "a". split; [left|apply rtc_refl].
  - eapply tc_l; [apply inheritsFrom_triangle_ab|].
    eapply tc_l; [apply inheritsFrom_triangle_bc|].
    apply tc_once, inheritsFrom_triangle_ca.
  - destruct Hc as (x & Hx & _).
    + apply (closedUnder_sound _ _ _ ["a"; "b"; "c"]). vm_compute. reflexivity.
    + exists x. apply Hx. vm_compute. lia.
Defined.


End ProfileFacts.

(** * The template library *)

Module TemplateFacts.
Import TemplateStore TemplateSpec.

Section Store.

Variable files : gmap string Document.

Lemma listTemplateVersions_stored templateId v :
  v ∈ listTemplateVersions files templateId ↔ storedVersion files templateId v.
Proof.
  unfold listTemplateVersions. rewrite merge_sort_Permutation, list_elem_of_omap.
  split.
  - intros (name & Hname & Hv). exists name. split; [done|].
    destruct (parseFilename name) as [[i v']|]; [|done].
    destruct (String.eqb_spec i templateId) as [->|]; [|done]. congruence.
  - intros (name & Hname & Hparse). exists name. split; [done|].
    by rewrite Hparse, String.eqb_refl.
Qed.

Lemma getLatestVersion_max templateId m :
  getLatestVersion files templateId = Some m →
  storedVersion files templateId m
  ∧ ∀ v, storedVersion files templateId v → (v ≤ m)%Z.
Proof.
  unfold getLatestVersion. intros Hhead.
  pose proof (StronglySorted_merge_sort descending
    (omap (λ name, match parseFilename name with
                   | Some (i, v) => if String.eqb i templateId then Some v else None
                   | None => None
                   end) (readdir files))) as Hsorted.
  fold (listTemplateVersions files templateId) in Hsorted.
  destruct (listTemplateVersions files templateId) as [|m' l] eqn:Hl; [done|].
  injection Hhead as ->. split.
  - apply listTemplateVersions_stored. rewrite Hl. left.
  - intros v Hv%listTemplateVersions_stored. rewrite Hl in Hv.
    apply elem_of_cons in Hv as [->|Hv]; [lia|].
    apply StronglySorted_inv in Hsorted as [_ Hall].
    rewrite Forall_forall in Hall. by apply Hall.
Qed.

Lemma getLatestVersion_none templateId :
  getLatestVersion files templateId = None ↔ ∀ v, ¬ storedVersion files templateId v.
Proof.
  unfold getLatestVersion. rewrite head_None. split.
  - intros Hnil v Hv%listTemplateVersions_stored. rewrite Hnil in Hv.
    by apply elem_of_nil in Hv.
  - intros Hno. destruct (listTemplateVersions files templateId) as [|v l] eqn:Hl; [done|].
    destruct (Hno v). apply listTemplateVersions_stored. rewrite Hl. left.
Qed.

(** The part of C5 the code keeps: no version at all is a NotFound. *)
Lemma loadTemplate_no_versions templateId :
  (∀ v, ¬ storedVersion files templateId v) →
  loadTemplate files templateId None = Err (TemplateNotFound templateId).
Proof.
  intros Hno%getLatestVersion_none. unfold loadTemplate. by rewrite Hno.
Qed.

(** The part it misses: a missing explicit version is the rejection of
    [readFile]. *)
Lemma loadTemplate_missing_version templateId version :
  files !! templateFilename templateId version = None →
  loadTemplate files templateId (Some version)
  = Err (ENOENT (templateFilename templateId version)).
Proof. intros Hnone. unfold loadTemplate. by rewrite Hnone. Qed.

(** C6. For a template identifier with at least one stored version there
    is a greatest stored version, and [loadTemplate] without a version gives
    exactly what [loadTemplate] gives for that version. *)
Theorem loadTemplate_latest templateId :
  (∃ v, storedVersion files templateId v) →
  ∃ m, storedVersion files templateId m
       ∧ (∀ v, storedVersion files templateId v → (v ≤ m)%Z)
       ∧ loadTemplate files templateId None = loadTemplate files templateId (Some m).
Proof.
  intros [v Hv].
  destruct (getLatestVersion files templateId) as [m|] eqn:Hm.
  - destruct (getLatestVersion_max _ _ Hm) as [Hstored Hmax].
    exists m. split_and!; [done..|]. unfold loadTemplate. by rewrite Hm.
  - destruct (getLatestVersion_none templateId) as [Hno _]. by destruct (Hno Hm v).
Qed.

Lemma loadTemplate_exact_inv templateId version template :
  loadTemplate files templateId (Some version) = Ok template →
  files !! templateFilename templateId version = Some (TemplateDoc template)
  ∧ validateTemplate template = [].
Proof.
  unfold loadTemplate.
  destruct (files !! templateFilename templateId version) as [[thrown| |t]|];
    try done.
  destruct (validateTemplate t) eqn:Hvalid; [|done]. by intros [= <-].
Qed.

Lemma loadTemplate_exact_inv_insert templateId version document reloaded :
  loadTemplate (<[templateFilename templateId version := document]> files)
    templateId (Some version) = Ok reloaded →
  document = TemplateDoc reloaded.
Proof.
  unfold loadTemplate. rewrite lookup_insert_eq.
  destruct document as [thrown| |t]; try done.
  destruct (validateTemplate t); [|done]. by intros [= <-].
Qed.

Lemma trim_given r : Js.trim r ≠ "" → r ≠ "".
Proof. by intros Htrim ->. Qed.


(** [YAML.stringify] and [YAML.parse] of the yaml library. *)
Variable YAML_stringify : TaskTemplate → string.
Variable YAML_parse : string → Document.


End Store.

Import Samples.

Example listTemplateVersions_sample : listTemplateVersions templates "t" = [3; 1]%Z.
Proof. vm_compute. reflexivity. Qed.

Example parseFilename_samples :
  parseFilename "t@1.yaml" = Some ("t", 1%Z)
  ∧ parseFilename "a@b@12.YML" = Some ("a@b", 12%Z)
  ∧ parseFilename "t@0.yaml" = None
  ∧ parseFilename "@1.yaml" = None
  ∧ parseFilename "t@1.yaml.bak" = None.
Proof. vm_compute. done. Qed.

Lemma loadTemplate_latest_witness :
  loadTemplate templates "t" None = loadTemplate templates "t" (Some 3%Z).
Proof.
  destruct (loadTemplate_latest templates "t") as (m & Hm & Hmax & Heq).
  - exists 1%Z. apply listTemplateVersions_stored. vm_compute. right. left.
  - assert (m = 3%Z) as ->; [|exact Heq].
    apply listTemplateVersions_stored in Hm.
    assert (storedVersion templates "t" 3%Z) as H3%Hmax.
    { apply listTemplateVersions_stored. vm_compute. left. }
    revert Hm. vm_compute. intros Hm.
    apply list_elem_of_In in Hm. simpl in Hm. destruct Hm as [<-|[<-|[]]]; [done|lia].
Defined.



(** C5. On the store holding versions 1 and 3 of [t], asking for version 2
    does not give a NotFound: the outcome is the rejection of [readFile],
    with its path and its storage text. Asking for an identifier without any
    version, with no version argument, does give the NotFound. *)
Theorem loadTemplate_missing_version_leaks :
  loadTemplate templates "t" (Some 2%Z) = Err (ENOENT "t@2.yaml")
  ∧ kind (ENOENT "t@2.yaml") = StorageFailure
  ∧ message (ENOENT "t@2.yaml")
    = "ENOENT: no such file or directory, open 't@2.yaml'"
  ∧ loadTemplate templates "none" None = Err (TemplateNotFound "none").
Proof. vm_compute. done. Qed.

End TemplateFacts.

(** * Instance generation *)

Module InstanceFacts.
Import InstanceStore InstanceSpec JsFacts.







Section Store.

Variable ajv : Schema.Ajv.
Variable templates : gmap string TemplateStore.Document.
Variable files : gmap string TaskInstance.


End Store.

Import Samples.


Example generateInstance_sample :
  generateInstance flatAjv templates ∅ "uuid-1" now
    "demo" "t" 1 [("size", VStr "big")] "abc123" []
  = (∅, Err (InputValidationFailed "t" 1
               ["/ must have required property 'name'";
                "/size must be integer"])).
Proof. vm_compute. reflexivity. Qed.

Example generateInstance_accepts :
  ∃ instance,
    generateInstance flatAjv templates ∅ "uuid-1" now
      "demo" "t" 1 [("name", VStr "todo.txt")] "abc123" []
    = ({[ "demo/uuid-1.json" := instance ]}, Ok instance)
    ∧ status instance = Some pending.
Proof. eexists. split; [vm_compute; reflexivity|done]. Qed.


End InstanceFacts.

(** * Placeholder substitution *)

Module SubstitutionFacts.
Import TaskExecutor SubstitutionSpec JsFacts.

Lemma braceFree_cons a s :
  braceFree (String a s) = true →
  Ascii.eqb a "{" = false ∧ Ascii.eqb a "}" = false ∧ braceFree s = true.
Proof.
  unfold braceFree. cbn [Js.includesChar].
  destruct (Ascii.eqb a "{"), (Ascii.eqb a "}"); try done.
  all: rewrite ?andb_false_r; done.
Qed.

Lemma braceFree_app s t :
  braceFree (s +:+ t) = braceFree s && braceFree t.
Proof.
  unfold braceFree. rewrite !includesChar_app.
  destruct (Js.includesChar "{" s), (Js.includesChar "}" s),
    (Js.includesChar "{" t), (Js.includesChar "}" t); done.
Qed.

Lemma startsWith_other_hole k n rest :
  braceFree k = true → braceFree n = true → n ≠ k →
  Js.startsWith (k +:+ "}") (n +:+ "}" +:+ rest) = false.
Proof.
  revert n. induction k as [|a k IH]; intros [|c n] Hk Hn Hne; try done.
  - apply braceFree_cons in Hn as (_ & Hc & _).
    rewrite !app_cons, !app_nil_l. cbn [Js.startsWith].
    by rewrite Ascii.eqb_sym, Hc.
  - apply braceFree_cons in Hk as (_ & Ha & _).
    rewrite !app_nil_l, !app_cons, !app_nil_l. cbn [Js.startsWith]. by rewrite Ha.
  - apply braceFree_cons in Hk as (_ & _ & Hk).
    apply braceFree_cons in Hn as (_ & _ & Hn).
    rewrite !app_cons. cbn [Js.startsWith].
    destruct (Ascii.eqb_spec a c) as [->|]; [|done].
    apply IH; [done..|]. congruence.
Qed.

Section Passes.

Variable JSON_stringify : Value → string.

Lemma placeholder_unfold k : placeholder k = String "{" (k +:+ "}").
Proof. done. Qed.

Lemma flatten_text s ts : flatten (Text s :: ts) = s +:+ flatten ts.
Proof. done. Qed.

Lemma flatten_hole n ts :
  flatten (Hole n :: ts) = String "{" ((n +:+ "}") +:+ flatten ts).
Proof. done. Qed.

(** One [replaceAll] of the loop, on a well-formed template. *)
Lemma replaceAll_tokens k r ts :
  braceFree k = true → dollarFree r = true → wellFormed ts = true →
  ∀ before, Js.replaceAllFrom (placeholder k) r before 0 (flatten ts)
            = flatten (map (plug k r) ts).
Proof.
  intros Hk Hr. induction ts as [|[s|n] ts IH]; intros Hts before.
  - done.
  - apply andb_true_iff in Hts as [Hs Hts]. specialize (IH Hts).
    cbn [map plug]. rewrite !flatten_text, placeholder_unfold.
    apply replaceAllFrom_text; [|done].
    unfold openFree in Hs. by destruct (Js.includesChar "{" s).
  - apply andb_true_iff in Hts as [Hn Hts]. specialize (IH Hts).
    cbn [map plug]. rewrite flatten_hole, placeholder_unfold.
    rewrite placeholder_unfold in IH.
    cbn [Js.replaceAllFrom Js.startsWith]. rewrite Ascii.eqb_refl.
    destruct (String.eqb_spec n k) as [->|Hne].
    + rewrite startsWith_app, getSubstitution_plain by done.
      rewrite flatten_text. f_equal.
      replace (String.length (String "{" (k +:+ "}")) - 1)
        with (String.length (k +:+ "}")) by (simpl; lia).
      by apply replaceAllFrom_skip.
    + rewrite app_assoc', startsWith_other_hole by done.
      rewrite flatten_hole. f_equal. rewrite <-app_assoc'.
      apply replaceAllFrom_text; [|done].
      rewrite includesChar_app. unfold braceFree in Hn.
      by destruct (Js.includesChar "{" n).
Qed.

Lemma wellFormed_plug k r ts :
  openFree r = true → wellFormed ts = true → wellFormed (map (plug k r) ts) = true.
Proof.
  intros Hr. induction ts as [|[s|n] ts IH]; [done|..];
    cbn [wellFormed forallb map plug]; intros [Ht Hts]%andb_true_iff.
  - apply andb_true_iff. split; [done|by apply IH].
  - apply andb_true_iff. split; [|by apply IH].
    by destruct (String.eqb n k).
Qed.

Lemma substituteSimultaneously_cons vars t ts :
  substituteSimultaneously JSON_stringify vars (t :: ts)
  = fill JSON_stringify vars t +:+ substituteSimultaneously JSON_stringify vars ts.
Proof. done. Qed.

Lemma substituteSimultaneously_nil ts :
  substituteSimultaneously JSON_stringify [] ts = flatten ts.
Proof.
  induction ts as [|[s|n] ts IH]; [done|..];
    by rewrite substituteSimultaneously_cons, IH.
Qed.

Lemma substituteSimultaneously_plug k v vars ts :
  substituteSimultaneously JSON_stringify vars
    (map (plug k (replacementOf JSON_stringify v)) ts)
  = substituteSimultaneously JSON_stringify ((k, v) :: vars) ts.
Proof.
  induction ts as [|t ts IH]; [done|].
  cbn [map]. rewrite !substituteSimultaneously_cons, IH. f_equal.
  destruct t as [s|n]; [done|]. cbn [plug fill Js.prop].
  rewrite (String.eqb_sym k n). by destruct (String.eqb n k).
Qed.

(** The loop of [substituteVariables] is the simultaneous substitution when
    neither the names nor the substituted texts can make or break a
    placeholder. *)
Lemma substituteEach_tokens vars ts :
  plainVars JSON_stringify vars = true → wellFormed ts = true →
  substituteEach JSON_stringify vars (flatten ts)
  = substituteSimultaneously JSON_stringify vars ts.
Proof.
  revert ts. induction vars as [|[k v] vars IH]; intros ts Hvars Hts.
  - symmetry. apply substituteSimultaneously_nil.
  - cbn [plainVars forallb] in Hvars.
    apply andb_true_iff in Hvars as [[[Hk Hb]%andb_true_iff Hd]%andb_true_iff Hvars].
    simpl in Hk, Hb, Hd.
    unfold substituteEach. cbn [foldl]. unfold Js.replaceAll. cbn [fst snd].
    rewrite replaceAll_tokens by done.
    rewrite <-substituteSimultaneously_plug. apply IH; [done|].
    by apply wellFormed_plug.
Qed.

Lemma deriveConvenienceVariables_spec inputs :
  deriveConvenienceVariables inputs
  = match Js.prop "endpoint_path" inputs with
    | Some (VStr path) =>
        match last (meaningfulSegments path) with
        | Some segment => [("resource", segment)]
        | None => []
        end
    | _ => []
    end.
Proof. done. Qed.

Lemma plainVars_elem_of vars k v :
  plainVars JSON_stringify vars = true → (k, v) ∈ vars →
  braceFree k = true ∧ openFree (replacementOf JSON_stringify v) = true
  ∧ dollarFree (replacementOf JSON_stringify v) = true.
Proof.
  unfold plainVars. rewrite forallb_forall. intros Hall Hin%list_elem_of_In.
  apply Hall in Hin. simpl in Hin.
  by apply andb_true_iff in Hin as [[??]%andb_true_iff ?].
Qed.

Lemma plainVars_setProp k v vars :
  plainVars JSON_stringify vars = true →
  braceFree k = true → openFree (replacementOf JSON_stringify v) = true →
  dollarFree (replacementOf JSON_stringify v) = true →
  plainVars JSON_stringify (Js.setProp k v vars) = true.
Proof.
  intros Hvars Hk Hb Hd. induction vars as [|[k0 v0] vars IH]; simpl.
  - by rewrite Hk, Hb, Hd.
  - simpl in Hvars. apply andb_true_iff in Hvars as [H0 Hvars].
    destruct (String.eqb k0 k); simpl.
    + by rewrite Hk, Hb, Hd.
    + by rewrite H0, IH.
Qed.

Lemma plainVars_allVars inputs :
  plainVars JSON_stringify inputs = true →
  plainVars JSON_stringify (allVars inputs) = true.
Proof.
  intros Hin. unfold allVars. rewrite deriveConvenienceVariables_spec.
  destruct (Js.prop "endpoint_path" inputs) as [[| | |path| |]|] eqn:Hpath; try done.
  destruct (last (meaningfulSegments path)) as [segment|] eqn:Hlast; [|done].
  apply prop_elem_of in Hpath.
  destruct (plainVars_elem_of _ _ _ Hin Hpath) as (_ & Hb & Hd). simpl in Hb, Hd.
  assert (segment ∈ Js.split "/" path) as Hseg.
  { apply last_Some_elem_of in Hlast.
    by apply list_elem_of_filter in Hlast as [_ ?]. }
  cbn. apply plainVars_setProp; [done..| |]; simpl.
  - unfold openFree in *.
    destruct (Js.includesChar "{" segment) eqn:H1; [|done].
    by rewrite (split_includes _ _ _ _ Hseg H1) in Hb.
  - unfold dollarFree in *.
    destruct (Js.includesChar "$" segment) eqn:H1; [|done].
    by rewrite (split_includes _ _ _ _ Hseg H1) in Hd.
Qed.

Lemma substituteVariables_tokens inputs ts :
  wellFormed ts = true → plainVars JSON_stringify inputs = true →
  substituteVariables JSON_stringify (flatten ts) inputs
  = substituteSimultaneously JSON_stringify (allVars inputs) ts.
Proof.
  intros Hts Hin. apply substituteEach_tokens; [|done]. by apply plainVars_allVars.
Qed.

Lemma allVars_resource inputs path segment :
  Js.prop "endpoint_path" inputs = Some (VStr path) →
  last (meaningfulSegments path) = Some segment →
  allVars inputs = Js.setProp "resource" (VStr segment) inputs.
Proof.
  intros Hpath Hlast. unfold allVars.
  by rewrite deriveConvenienceVariables_spec, Hpath, Hlast.
Qed.

(** C7, with the conditions the loop needs. For a template in which every
    opening brace opens a placeholder whose name holds no brace, and inputs
    whose keys hold no brace and whose substituted texts hold no opening
    brace and no dollar sign, [substituteVariables] puts the rendering of
    its value in place of every placeholder named by an input or by the
    derived [resource], and leaves every other placeholder and all other
    text as they are. In particular ["Create {name}"] with
    [{name: "todo.txt"}] gives ["Create todo.txt"]. *)
Theorem substituteVariables_fills_placeholders inputs ts :
  wellFormed ts = true → plainVars JSON_stringify inputs = true →
  substituteVariables JSON_stringify (flatten ts) inputs
  = substituteSimultaneously JSON_stringify (allVars inputs) ts.
Proof. apply substituteVariables_tokens. Qed.

(** C9. When [endpoint_path] is a string whose last non-empty segment
    without [:] and [?] is [segment], the one derived variable is [resource],
    bound to [segment]; the variables of the loop are the inputs with
    [resource] set to it, so that the rendering is the same whatever value
    the inputs give [resource] themselves; and on templates and inputs as in
    C7 every [{resource}] is filled with [segment]. *)
Theorem resource_is_derived inputs path segment :
  Js.prop "endpoint_path" inputs = Some (VStr path) →
  last (meaningfulSegments path) = Some segment →
  deriveConvenienceVariables inputs = [("resource", segment)]
  ∧ Js.prop "resource" (allVars inputs) = Some (VStr segment)
  ∧ (∀ template,
       substituteVariables JSON_stringify template inputs
       = substituteEach JSON_stringify
           (Js.setProp "resource" (VStr segment) inputs) template)
  ∧ (∀ explicit template,
       substituteVariables JSON_stringify template
         (Js.setProp "resource" explicit inputs)
       = substituteVariables JSON_stringify template inputs)
  ∧ (∀ ts, wellFormed ts = true → plainVars JSON_stringify inputs = true →
       substituteVariables JSON_stringify (flatten ts) inputs
       = substituteSimultaneously JSON_stringify
           (Js.setProp "resource" (VStr segment) inputs) ts).
Proof.
  intros Hpath Hlast.
  pose proof (allVars_resource _ _ _ Hpath Hlast) as Hall.
  split_and!.
  - by rewrite deriveConvenienceVariables_spec, Hpath, Hlast.
  - by rewrite Hall, prop_setProp.
  - intros template. unfold substituteVariables. by rewrite Hall.
  - intros explicit template. unfold substituteVariables. f_equal.
    rewrite Hall. erewrite allVars_resource; [apply setProp_setProp| |done].
    by rewrite prop_setProp.
  - intros ts Hts Hin. rewrite <-Hall. by apply substituteVariables_tokens.
Qed.

End Passes.

Import Samples.

Lemma substituteVariables_fills_placeholders_witness :
  substituteVariables noJson "Create {name}" [("name", VStr "todo.txt")]
  = "Create todo.txt".
Proof.
  exact (substituteVariables_fills_placeholders noJson
           [("name", VStr "todo.txt")] [Text "Create "; Hole "name"]
           eq_refl eq_refl).
Defined.

Lemma resource_is_derived_witness :
  substituteVariables noJson "routes/{resource}.js"
    [("resource", VStr "items"); ("endpoint_path", VStr "/api/todos/:id")]
  = "routes/todos.js".
Proof.
  pose proof (resource_is_derived noJson
    [("resource", VStr "items"); ("endpoint_path", VStr "/api/todos/:id")]
    "/api/todos/:id" "todos" eq_refl eq_refl) as (_ & _ & H & _).
  rewrite H. vm_compute. reflexivity.
Defined.

(** C10. There are a template, inputs and a reordering of the same
    inputs such that the value of one key holds the placeholder of a key
    that comes later, the loop replaces that placeholder too, and so the
    rendered text differs from the simultaneous substitution and from the
    rendering of the reordered inputs. *)
Theorem substitution_is_sequential (JSON_stringify : Value → string) :
  ∃ template ts inputs reordered,
    template = flatten ts
    ∧ inputs ≡ₚ reordered
    ∧ Js.prop "a" inputs = Some (VStr (placeholder "b"))
    ∧ substituteVariables JSON_stringify template inputs = "x"
    ∧ substituteSimultaneously JSON_stringify (allVars inputs) ts = "{b}"
    ∧ substituteVariables JSON_stringify template reordered = "{b}"
    ∧ substituteVariables JSON_stringify template inputs
      ≠ substituteSimultaneously JSON_stringify (allVars inputs) ts
    ∧ substituteVariables JSON_stringify template inputs
      ≠ substituteVariables JSON_stringify template reordered.
Proof.
  exists "{a}", [Hole "a"], [("a", VStr "{b}"); ("b", VStr "x")],
    [("b", VStr "x"); ("a", VStr "{b}")].
  split_and!; [done|apply Permutation_swap|done..].
Qed.

(** C7 as stated fails: the value of [service] holds the placeholder of
    [env], which the loop replaces afterwards, so the text put in place of
    [{service}] is not the rendering of its value. *)
Lemma substituteVariables_chained_counterexample :
  wellFormed [Text "Deploy "; Hole "service"; Text " to "; Hole "env"] = true
  ∧ flatten [Text "Deploy "; Hole "service"; Text " to "; Hole "env"]
    = "Deploy {service} to {env}"
  ∧ substituteSimultaneously noJson
      (allVars [("service", VStr "api-{env}"); ("env", VStr "prod")])
      [Text "Deploy "; Hole "service"; Text " to "; Hole "env"]
    = "Deploy api-{env} to prod"
  ∧ substituteVariables noJson "Deploy {service} to {env}"
      [("service", VStr "api-{env}"); ("env", VStr "prod")]
    = "Deploy api-prod to prod"
  ∧ substituteVariables noJson "Deploy {service} to {env}"
      [("service", VStr "api-{env}"); ("env", VStr "prod")]
    ≠ substituteSimultaneously noJson
        (allVars [("service", VStr "api-{env}"); ("env", VStr "prod")])
        [Text "Deploy "; Hole "service"; Text " to "; Hole "env"].
Proof. split_and!; [done..|]. vm_compute. discriminate. Qed.

(** [replaceAll] reads dollar patterns in the value it is given. *)
Example dollar_patterns_expand :
  substituteVariables noJson "Create {name}" [("name", VStr "$$")] = "Create $"
  ∧ substituteVariables noJson "Create {name}" [("name", VStr "<$&>")]
    = "Create <{name}>".
Proof. done. Qed.

End SubstitutionFacts.

(** * Two-phase execution *)

Module ExecutorFacts.
Import TaskExecutor ExecutorSpec.

Section Execution.

Variable apply : ExecutionPlan → Result Error (list string).

(** What one [executeTask] does to any stored plan: it stays stored, and
    either stays as it is or is the pending plan that left [pending]. *)
Lemma executeTaskWith_stored plans planId path plan :
  plans !! path = Some plan →
  ∃ plan', (executeTaskWith apply plans planId).1 !! path = Some plan'
           ∧ (plan' = plan
              ∨ (status plan = pending ∧ status plan' ≠ pending)).
Proof.
  intros Hplan. unfold executeTaskWith.
  destruct (plans !! planPath planId) as [target|] eqn:Htarget; [|by eauto].
  case_decide as Hpending; [by eauto|].
  assert (status target = pending) as Htp by (by destruct (status target)).
  destruct (decide (path = planPath planId)) as [->|Hne].
  - simplify_eq. destruct (apply _); simpl; rewrite lookup_insert_eq;
      eexists; (split; [done|]); right; done.
  - destruct (apply _); simpl; rewrite !lookup_insert_ne by done; eauto.
Qed.

End Execution.

Section Plans.

Variable JSON_stringify : Value → string.
Variable pathJoin : list string → string.
Variable profilesDir : string.

Local Abbreviation planStep := (planStep JSON_stringify pathJoin profilesDir).

Lemma prepareTask_stored profiles templates instances plans fuel planId now
    projectSlug instanceId plans' outcome path plan :
  plans !! planPath planId = None →
  prepareTask JSON_stringify pathJoin profilesDir profiles templates instances
    plans fuel planId now projectSlug instanceId = Some (plans', outcome) →
  plans !! path = Some plan → plans' !! path = Some plan.
Proof.
  intros Hfresh Hprep Hplan. unfold prepareTask in Hprep.
  destruct (InstanceStore.getInstance _ _ _); [|by simplify_eq].
  destruct (TemplateStore.loadTemplate _ _ _); [|by simplify_eq].
  destruct (InstanceStore.domain_profiles _); simpl in Hprep.
  - simplify_eq. rewrite lookup_insert_ne; [done|]. simpl. congruence.
  - destruct (ProfileStore.resolveProfiles _ _ _ _ _) as [[?|?]|];
      simplify_eq; [|done].
    rewrite lookup_insert_ne; [done|]. simpl. congruence.
Qed.

Lemma planStep_forward plans plans' path plan :
  planStep plans plans' → plans !! path = Some plan →
  ∃ plan', plans' !! path = Some plan'
           ∧ (status plan ≠ pending → status plan' ≠ pending).
Proof.
  intros Hstep Hplan. destruct Hstep.
  - destruct (executeTaskWith_stored applyPlan plans planId path plan Hplan)
      as (plan' & Hplan' & [->|[Hp _]]); eauto.
  - exists plan. split; [|done]. by eapply prepareTask_stored.
Qed.

Lemma planSteps_forward plans plans' path plan :
  rtc planStep plans plans' → plans !! path = Some plan →
  status plan ≠ pending →
  ∃ plan', plans' !! path = Some plan' ∧ status plan' ≠ pending.
Proof.
  intros Hsteps. revert plan. induction Hsteps as [|plans mid plans' Hstep _ IH];
    intros plan Hplan Hstatus; [by eauto|].
  destruct (planStep_forward _ _ _ _ Hstep Hplan) as (plan1 & Hplan1 & Hs1).
  eapply IH; [done|]. by apply Hs1.
Qed.

(** C1. For a stored plan, [executeTask] fails with a state error exactly
    when the plan is not [pending], and then changes nothing; on a pending
    plan it succeeds and stores the plan as [completed], after which the
    same call fails with the state error naming [completed]; and along any
    history of [executeTask] and [prepareTask] steps a stored plan that has
    left [pending] stays stored and never is [pending] again. *)
Theorem executeTask_gate plans planId plan :
  plans !! planPath planId = Some plan →
  ((∃ e, (executeTask plans planId).2 = Err e ∧ kind e = StateError)
   ↔ status plan ≠ pending)
  ∧ (status plan ≠ pending →
     executeTask plans planId = (plans, Err (CannotExecute (status plan))))
  ∧ (status plan = pending →
     ∃ results,
       executeTask plans planId
       = (<[planPath planId := withStatus completed plan]> plans,
          Ok (withStatus completed plan, results))
       ∧ executeTask (executeTask plans planId).1 planId
         = ((executeTask plans planId).1, Err (CannotExecute completed)))
  ∧ (∀ plans' path stored,
       rtc planStep plans plans' → plans !! path = Some stored →
       status stored ≠ pending →
       ∃ stored', plans' !! path = Some stored' ∧ status stored' ≠ pending).
Proof.
  intros Hplan.
  assert (status plan ≠ pending →
          executeTask plans planId = (plans, Err (CannotExecute (status plan))))
    as Hrefuse.
  { intros Hs. unfold executeTask, executeTaskWith. rewrite Hplan.
    by rewrite decide_True. }
  assert (status plan = pending →
          executeTask plans planId
          = (<[planPath planId := withStatus completed plan]> plans,
             Ok (withStatus completed plan,
                 match applyPlan (withStatus executing plan) with
                 | Ok results => results | Err _ => []
                 end))) as Hrun.
  { intros Hs. unfold executeTask, executeTaskWith. rewrite Hplan.
    rewrite decide_False by (by intros []). simpl.
    by rewrite insert_insert_eq. }
  split_and!.
  - split.
    + intros (e & He & Hkind) Hs.
      destruct (decide (status plan = pending)) as [Hp|]; [|done].
      rewrite (Hrun Hp) in He. done.
    + intros Hs. rewrite (Hrefuse Hs). by eexists.
  - done.
  - intros Hs. eexists. split; [by apply Hrun|].
    rewrite (Hrun Hs). simpl. unfold executeTask, executeTaskWith.
    rewrite lookup_insert_eq. by rewrite decide_True.
  - intros plans' path stored. apply planSteps_forward.
Qed.

End Plans.

Import Samples.

Example prepareTask_renders_step :
  prepareTask noJson pathJoin profilesDir ∅ templates instances ∅ 0
    "p-1" now "demo" "i-1"
  = Some ({[ "p-1.yaml" := todoPlan ]}, Ok todoPlan).
Proof. vm_compute. reflexivity. Qed.

Example executeTask_results :
  executeTask plans "p-1"
  = ({[ "p-1.yaml" := withStatus completed todoPlan ]},
     Ok (withStatus completed todoPlan, ["[Step s1] Create todo.txt"])).
Proof. vm_compute. reflexivity. Qed.

Lemma executeTask_gate_witness :
  (executeTask (executeTask plans "p-1").1 "p-1").2
  = Err (CannotExecute completed).
Proof.
  destruct (executeTask_gate noJson pathJoin profilesDir plans "p-1" todoPlan
              eq_refl) as (_ & _ & Hrun & _).
  destruct (Hrun eq_refl) as (results & _ & Hagain).
  by rewrite Hagain.
Defined.

End ExecutorFacts.

(** * More facts about the built-ins *)

Module BuiltinFacts.

Lemma list_ascii_app (s t : string) :
  String.list_ascii_of_string (s +:+ t)
  = String.list_ascii_of_string s ++ String.list_ascii_of_string t.
Proof. induction s as [|a s IH]; [done|]. cbn. by rewrite <-IH. Qed.







Lemma includesChar_false (c : ascii) (s : string) :
  Js.includesChar c s = false
  ↔ Forall (λ a, a ≠ c) (String.list_ascii_of_string s).
Proof.
  induction s as [|a s IH]; cbn; [by split; [constructor|]|].
  destruct (Ascii.eqb_spec a c) as [->|Hne].
  - split; [done|]. by intros [? _]%Forall_cons.
  - rewrite IH. split; [by constructor|]. by intros [_ ?]%Forall_cons.
Qed.


Lemma split_plain (sep : ascii) (s : string) :
  Js.includesChar sep s = false → Js.split sep s = [s].
Proof.
  induction s as [|a s IH]; cbn; [done|].
  destruct (Ascii.eqb a sep); [done|]. by intros ->%IH.
Qed.

End BuiltinFacts.

(** * The template library: file names, listing and writing *)

Module TemplateLibrary.
Import TemplateStore.




Section Store.

Variable files : gmap string Document.

Lemma parseFilename_positive name i v :
  parseFilename name = Some (i, v) → (1 ≤ v)%Z ∧ i ≠ "".
Proof.
  unfold parseFilename.
  destruct (stripExtension _) as [r|]; [|done].
  destruct (spanDigits r) as [[|d ds] [|a l0]]; try done.
  destruct a as [[] [] [] [] [] [] [] []]; try done.
  destruct l0 as [|c cs]; [done|].
  destruct (existsb isLineTerminator (c :: cs)); [done|].
  destruct (Z.ltb_spec (Js.parseInt (String.string_of_list_ascii (reverse (d :: ds)))) 1);
    [done|].
  intros [= <- <-]. split; [done|].
  intros Hnil. apply (f_equal String.list_ascii_of_string) in Hnil.
  rewrite String.list_ascii_of_string_of_list_ascii in Hnil.
  by apply (f_equal length) in Hnil; rewrite length_reverse in Hnil.
Qed.

(** X2. [listTemplateVersions] returns its versions in descending
    order, and a version is listed exactly when a file directly in the
    directory of the store has a name that [parseFilename] reads as this
    identifier and that version; every listed version is at least 1. *)
Theorem listTemplateVersions_sorted templateId :
  StronglySorted descending (listTemplateVersions files templateId)
  ∧ ∀ v, v ∈ listTemplateVersions files templateId ↔
         ∃ name, is_Some (files !! name) ∧ Js.includesChar "/" name = false
                 ∧ parseFilename name = Some (templateId, v) ∧ (1 ≤ v)%Z.
Proof.
  split; [apply StronglySorted_merge_sort; apply _|].
  intros v. rewrite TemplateFacts.listTemplateVersions_stored.
  unfold TemplateSpec.storedVersion, readdir. split.
  - intros (name & [Hplain Hin]%list_elem_of_filter & Hparse).
    exists name. apply elem_of_elements, elem_of_dom in Hin.
    split_and!; try done. by apply parseFilename_positive in Hparse as [? _].
  - intros (name & Hin & Hplain & Hparse & _). exists name. split; [|done].
    apply list_elem_of_filter. split; [done|].
    by apply elem_of_elements, elem_of_dom.
Qed.


Lemma validateTemplate_nil t :
  validateTemplate t = [] ↔
  id t ≠ "" ∧ (1 ≤ TemplateStore.version t)%Z ∧ description t ≠ "" ∧ steps t ≠ [].
Proof.
  unfold validateTemplate.
  destruct (String.eqb_spec (id t) ""), (Z.ltb_spec (TemplateStore.version t) 1),
    (String.eqb_spec (description t) ""), (steps t); cbn; split;
    try done; try (intros (? & ? & ? & ?); done || lia).
Qed.

(** [YAML.stringify] and [YAML.parse] of the yaml library. *)
Variable YAML_stringify : TaskTemplate → string.
Variable YAML_parse : string → Document.

Local Abbreviation putTemplate :=
  (TemplateStore.putTemplate files YAML_stringify YAML_parse).
Local Abbreviation deleteTemplate :=
  (TemplateStore.deleteTemplate files YAML_stringify YAML_parse).

(** X3. When [putTemplate] succeeds the template was valid, the
    result names its identifier, version and file, and no file but that one
    changes. Loading that identifier and version afterwards returns what
    [YAML.parse] makes of the text [YAML.stringify] wrote: the template
    itself whenever the library reads back what it wrote, and never
    anything the library does not read back. *)
Theorem putTemplate_loadTemplate template files' result :
  putTemplate template = (files', Ok result) →
  result = (id template, TemplateStore.version template,
            templateFilename (id template) (TemplateStore.version template))
  ∧ validateTemplate template = []
  ∧ (∀ path,
       path ≠ templateFilename (id template) (TemplateStore.version template) →
       files' !! path = files !! path)
  ∧ (YAML_parse (YAML_stringify template) = TemplateDoc template →
     loadTemplate files' (id template) (Some (TemplateStore.version template))
     = Ok template)
  ∧ (∀ reloaded,
       loadTemplate files' (id template) (Some (TemplateStore.version template))
       = Ok reloaded →
       YAML_parse (YAML_stringify template) = TemplateDoc reloaded).
Proof.
  unfold TemplateStore.putTemplate.
  destruct (validateTemplate template) eqn:Hvalid; [|done].
  destruct (directoryExists _ _); [|done]. intros [= <- <-].
  split_and!; [done..| | |].
  - intros path Hpath. by rewrite lookup_insert_ne.
  - intros Hback. unfold loadTemplate. by rewrite lookup_insert_eq, Hback, Hvalid.
  - intros reloaded. apply TemplateFacts.loadTemplate_exact_inv_insert.
Qed.



(** X6. [deleteTemplate], whether it succeeds or fails, changes
    for no identifier the versions [listTemplateVersions] lists nor the
    latest version: a deprecated version stays listed, and stays the
    default of [loadTemplate] when it is the latest. *)
Theorem deleteTemplate_keeps_listing now templateId version reason other :
  listTemplateVersions (deleteTemplate now templateId version reason).1 other
  = listTemplateVersions files other
  ∧ getLatestVersion (deleteTemplate now templateId version reason).1 other
    = getLatestVersion files other.
Proof.
  assert (listTemplateVersions (deleteTemplate now templateId version reason).1 other
          = listTemplateVersions files other) as Hlist; [|split; [done|]].
  - unfold TemplateStore.deleteTemplate.
    destruct (loadTemplate files templateId (Some version)) as [template|e] eqn:Hload;
      [|done].
    apply TemplateFacts.loadTemplate_exact_inv in Hload as [Hfile _].
    cbn [fst]. unfold listTemplateVersions, readdir.
    by rewrite (dom_insert_lookup_L files _ _ (mk_is_Some _ _ Hfile)).
  - unfold getLatestVersion. by rewrite Hlist.
Qed.

(** X7. A template [loadTemplate] returns has an identifier and a
    description that are not empty, a version of at least 1 and at least
    one step, and it is the document stored under the file name of the
    requested identifier and of the version asked for, or of the latest
    listed version when none is asked for. *)
Theorem loadTemplate_valid templateId version template :
  loadTemplate files templateId version = Ok template →
  id template ≠ "" ∧ (1 ≤ TemplateStore.version template)%Z
  ∧ description template ≠ "" ∧ steps template ≠ []
  ∧ ∃ target, files !! templateFilename templateId target = Some (TemplateDoc template)
              ∧ match version with
                | Some v => target = v
                | None => getLatestVersion files templateId = Some target
                end.
Proof.
  intros Hload.
  assert (∃ target, loadTemplate files templateId (Some target) = Ok template
                    ∧ match version with
                      | Some v => target = v
                      | None => getLatestVersion files templateId = Some target
                      end) as (target & Hexact & Htarget).
  { destruct version as [v|]; [by exists v|].
    unfold loadTemplate in *.
    destruct (getLatestVersion files templateId) as [m|]; [|done]. by exists m. }
  apply TemplateFacts.loadTemplate_exact_inv in Hexact as [Hfile Hvalid].
  apply validateTemplate_nil in Hvalid as (? & ? & ? & ?).
  split_and!; try done. by exists target.
Qed.

(** X8. The latest version is taken from the file names, which
    may end in [.yml] or in upper case, while the file read is always the
    one ending in [.yaml]. When no file of that name is stored for the
    latest listed version, [loadTemplate] without a version fails with the
    rejection of [readFile], although the version is listed. *)
Theorem loadTemplate_listed_but_unreadable templateId latest :
  getLatestVersion files templateId = Some latest →
  files !! templateFilename templateId latest = None →
  latest ∈ listTemplateVersions files templateId
  ∧ loadTemplate files templateId None
    = Err (ENOENT (templateFilename templateId latest)).
Proof.
  intros Hlatest Hfile. split.
  - unfold getLatestVersion in Hlatest.
    destruct (listTemplateVersions files templateId); [done|].
    injection Hlatest as ->. left.
  - unfold loadTemplate. by rewrite Hlatest, Hfile.
Qed.

End Store.

Import Samples.


Lemma putTemplate_loadTemplate_witness :
  loadTemplate
    (TemplateStore.putTemplate ∅ yamlStringify (yamlParse createFile) createFile).1
    "t" (Some 1%Z) = Ok createFile.
Proof.
  destruct (putTemplate_loadTemplate ∅ yamlStringify (yamlParse createFile)
              createFile
              (TemplateStore.putTemplate ∅ yamlStringify (yamlParse createFile)
                 createFile).1
              ("t", 1%Z, "t@1.yaml")) as (_ & _ & _ & Hload & _).
  - vm_compute. reflexivity.
  - apply Hload. vm_compute. reflexivity.
Defined.



Lemma loadTemplate_valid_witness : steps createFile3 ≠ [].
Proof.
  destruct (loadTemplate_valid templates "t" None createFile3)
    as (_ & _ & _ & Hsteps & _); [vm_compute; reflexivity|exact Hsteps].
Defined.

Lemma loadTemplate_listed_but_unreadable_witness :
  loadTemplate {[ "t@2.yml" := TemplateDoc createFile ]} "t" None
  = Err (ENOENT "t@2.yaml").
Proof.
  refine (proj2 (loadTemplate_listed_but_unreadable
                   {[ "t@2.yml" := TemplateDoc createFile ]} "t" 2 _ _));
    vm_compute; reflexivity.
Defined.

End TemplateLibrary.

(** * Profile resolution on any store *)

Module ProfileResolution.
Import ProfileStore.

Section Graph.

Variable pathJoin : list string → string.
Variable baseDir : string.
Variable files : gmap string Value.

Local Abbreviation load := (loadProfile pathJoin baseDir files).
Local Abbreviation visit := (ProfileStore.visit pathJoin baseDir files).
Local Abbreviation resolveProfiles :=
  (ProfileStore.resolveProfiles pathJoin baseDir files).
Local Abbreviation inheritsFrom := (ProfileSpec.inheritsFrom pathJoin baseDir files).
Local Abbreviation reachable := (ProfileSpec.reachable pathJoin baseDir files).
Local Abbreviation acyclicFrom := (ProfileSpec.acyclicFrom pathJoin baseDir files).
Local Abbreviation closedFrom := (ProfileSpec.closedFrom pathJoin baseDir files).
Local Abbreviation enoughFuel := (ProfileSpec.enoughFuel files).
Local Abbreviation invariant := (ProfileSpec.invariant pathJoin baseDir files).

(** A visit of a reachable identifier lists reachable profiles only. *)
Lemma visit_reachable entries n i st st' :
  reachable entries i →
  (∀ p, p ∈ resolved st → reachable entries (id p)) →
  visit n i st = Some (Ok st') →
  ∀ p, p ∈ resolved st' → reachable entries (id p).
Proof.
  revert i st st'. induction n as [|n IH]; intros i st st' Hi Hst; [done|]. simpl.
  case_decide as Hdone; [by intros [= <-]|]. case_decide as Hving; [done|].
  destruct (load i) as [q|e] eqn:Hload; [|done].
  set (st1 := {| resolved := resolved st; visiting := {[i]} ∪ visiting st;
                 visited := visited st |}).
  destruct (forEach (visit n) _ st1) as [[st2|e]|] eqn:Hf; [|done..].
  intros [= <-]. simpl.
  assert (∀ p, p ∈ resolved st2 → reachable entries (id p)) as Hst2.
  { revert Hf. apply (ProfileFacts.forEach_ok
      (λ s, ∀ p, p ∈ resolved s → reachable entries (id p))); [done|].
    intros t s s' Ht Hs Hvisit. apply (IH t s s'); [|done..].
    destruct Hi as (e & He & Hei). exists e. split; [done|].
    eapply rtc_r; [done|]. by exists q. }
  intros p [Hp| ->%list_elem_of_singleton]%elem_of_app; [auto|].
  by destruct (ProfileFacts.load_profile _ _ _ _ _ Hload) as [-> _].
Qed.

(** X9. On every store, a list [resolveProfiles] returns holds
    exactly the profiles the entries reach through the relations the
    traversal follows, each once, and every element is what [loadProfile]
    gives for its identifier: the document stored at its path, with the
    observation groups collected from it. *)
Theorem resolveProfiles_exact fuel entries out :
  resolveProfiles fuel entries = Some (Ok out) →
  (∀ x, x ∈ id <$> out ↔ reachable entries x)
  ∧ NoDup (id <$> out)
  ∧ ∀ p, p ∈ out →
      load (id p) = Ok p
      ∧ filePath p = profilePath pathJoin baseDir (id p)
      ∧ files !! filePath p = Some (profile p)
      ∧ groups p = collectObservationGroups (profile p) [].
Proof.
  intros Hok.
  destruct (ProfileFacts.resolveProfiles_ok _ _ _ _ _ _ Hok) as (Hnd & _ & Hlo & _).
  split_and!; [|done|].
  - intros x. split; [|by eapply ProfileFacts.reachable_resolved].
    intros (p & -> & Hp)%list_elem_of_fmap. revert p Hp.
    unfold ProfileStore.resolveProfiles in Hok.
    destruct (forEach (visit fuel) entries initial) as [[s|e]|] eqn:Hf; [|done..].
    injection Hok as <-. revert Hf.
    apply (ProfileFacts.forEach_ok
      (λ s, ∀ p, p ∈ resolved s → reachable entries (id p))).
    + intros p Hp. by apply elem_of_nil in Hp.
    + intros e s1 s2 He Hs Hvisit.
      apply (visit_reachable entries fuel e s1 s2); [|done..]. by exists e.
  - intros p Hp. specialize (Hlo p Hp). split; [done|].
    unfold loadProfile in Hlo.
    destruct (files !! profilePath pathJoin baseDir (id p)) as [v|] eqn:Hfile; [|done].
    destruct (isRecord v); [|done]. injection Hlo as Hp'. rewrite <-Hp'. by cbn.
Qed.

(** X10. With fuel enough for the store, [resolveProfiles] returns
    a list exactly when no inheritance cycle can be reached from the entries
    and every profile they reach is stored and parses as an object. *)
Theorem resolveProfiles_succeeds_iff entries :
  (∃ out, resolveProfiles (enoughFuel entries) entries = Some (Ok out))
  ↔ acyclicFrom entries ∧ closedFrom entries.
Proof.
  split.
  - intros [out Hok]. split.
    + intros x Hx Hcyc.
      by destruct (ProfileFacts.resolveProfiles_cycle_not_ok pathJoin baseDir files
                     (enoughFuel entries) entries out x).
    + intros x Hx.
      destruct (ProfileFacts.resolveProfiles_ok _ _ _ _ _ _ Hok) as (_ & _ & Hlo & _).
      apply (ProfileFacts.reachable_resolved _ _ _ _ _ _ _ Hok) in Hx.
      apply list_elem_of_fmap in Hx as (p & -> & Hp). exists p. by apply Hlo.
  - intros [Hacyclic Hclosed].
    destruct (ProfileFacts.resolveProfiles_terminates pathJoin baseDir files entries)
      as [[out|e] Hr]; [by exists out|].
    destruct (ProfileFacts.resolveProfiles_throws _ _ _ _ _ _ Hr)
      as [(x & _ & Hcyc & Hx)|(x & Hx & Hload)].
    + by destruct (Hacyclic x).
    + destruct (Hclosed x Hx) as [p Hp]. congruence.
Qed.


Lemma forEach_app {S} (f : string → S → option (Result Error S)) l1 l2 st :
  forEach f (l1 ++ l2) st
  = match forEach f l1 st with
    | Some (Ok st') => forEach f l2 st'
    | other => other
    end.
Proof.
  revert st. induction l1 as [|x l1 IH]; intros st; simpl; [done|].
  by destruct (f x st) as [[s|e]|].
Qed.

(** X12. Entries that repeat earlier entries change nothing: the
    outcome of [resolveProfiles], list or error, is that of the call without
    them. *)
Theorem resolveProfiles_repeated_entries fuel entries more :
  (∀ e, e ∈ more → e ∈ entries) →
  resolveProfiles fuel (entries ++ more) = resolveProfiles fuel entries.
Proof.
  intros Hmore. unfold ProfileStore.resolveProfiles. rewrite forEach_app.
  destruct (forEach (visit fuel) entries initial) as [[st|e]|] eqn:Hf; [|done..].
  destruct (ProfileFacts.forEach_visited pathJoin baseDir files _ _ _ _
              (ProfileFacts.visit_visited pathJoin baseDir files fuel)
              (ProfileFacts.invariant_initial pathJoin baseDir files) Hf)
    as (_ & _ & _ & Hall).
  assert (forEach (visit fuel) more st = Some (Ok st)) as ->; [|done].
  destruct fuel as [|fuel].
  { destruct entries as [|e entries]; [|done].
    destruct more as [|m more]; [done|].
    specialize (Hmore m (list_elem_of_here _ _)). by apply elem_of_nil in Hmore. }
  clear Hf. induction more as [|m more IH]; [done|]. simpl.
  rewrite decide_True by (apply Hall, Hmore; left).
  apply IH. intros e He. apply Hmore. by right.
Qed.

End Graph.

Lemma startsWith_dot b s : Js.startsWith "." (String b s) = Ascii.eqb "." b.
Proof. cbn [Js.startsWith]. by destruct (Ascii.eqb "." b). Qed.

Lemma startsWith_dotdot a s :
  Js.startsWith ".." (String a s) = Ascii.eqb "." a && Js.startsWith "." s.
Proof. cbn [Js.startsWith]. by destruct (Ascii.eqb "." a). Qed.

Lemma includes_dotdot_cons a s :
  Js.includes ".." (String a s)
  = (Ascii.eqb a "." && Js.startsWith "." s) || Js.includes ".." s.
Proof.
  cbn [Js.includes Js.startsWith]. rewrite (Ascii.eqb_sym "."%char a).
  destruct (Ascii.eqb a "."); [|done]. cbn [andb].
  destruct s as [|b s]; [done|]. cbn [Js.startsWith].
  by destruct (Ascii.eqb "." b).
Qed.

Lemma replaceDotDot_safe_aux n s :
  String.length s ≤ n →
  Js.includes ".." (replaceDotDot s) = false
  ∧ (Js.startsWith "." (replaceDotDot s) = true →
     Js.startsWith "." s = true ∧ Js.startsWith ".." s = false).
Proof.
  revert s. induction n as [|n IH]; intros s Hn.
  { destruct s; [done|cbn in Hn; lia]. }
  destruct s as [|a s]; [done|]. cbn [String.length] in Hn.
  destruct (Ascii.eqb_spec a ".") as [->|Ha].
  - destruct s as [|b s]; [done|]. cbn [String.length] in Hn.
    destruct (Ascii.eqb_spec b ".") as [->|Hb].
    + cbn [replaceDotDot]. destruct (IH s ltac:(lia)) as [Hs _].
      rewrite !includes_dotdot_cons, Hs. done.
    + destruct (IH (String b s)) as [Hs Hstart]; [cbn; lia|].
      assert (replaceDotDot (String "." (String b s))
              = String "." (replaceDotDot (String b s))) as ->.
      { cbn [replaceDotDot].
        destruct b as [[] [] [] [] [] [] [] []]; done. }
      rewrite includes_dotdot_cons, Hs, orb_false_r.
      rewrite startsWith_dotdot, !startsWith_dot, !Ascii.eqb_refl. cbn [andb].
      assert (Ascii.eqb "." b = false) as Hdot
        by (destruct (Ascii.eqb_spec "." b); congruence).
      split; [|done]. apply not_true_is_false. intros [Hb' _]%Hstart.
      rewrite startsWith_dot in Hb'. congruence.
  - destruct (IH s ltac:(lia)) as [Hs _].
    assert (replaceDotDot (String a s) = String a (replaceDotDot s)) as ->.
    { cbn [replaceDotDot].
      destruct a as [[] [] [] [] [] [] [] []]; done. }
    rewrite includes_dotdot_cons, Hs.
    destruct (Ascii.eqb_spec a "."); [done|]. split; [done|].
    rewrite startsWith_dot. by destruct (Ascii.eqb_spec "." a); [congruence|].
Qed.

Lemma replaceDotDot_id_aux n s :
  String.length s ≤ n → Js.includes ".." s = false → replaceDotDot s = s.
Proof.
  revert s. induction n as [|n IH]; intros s Hn.
  { destruct s; [done|cbn in Hn; lia]. }
  destruct s as [|a s]; [done|]. cbn [String.length] in Hn.
  rewrite includes_dotdot_cons. intros [Hhead Htail]%orb_false_elim.
  destruct (Ascii.eqb_spec a ".") as [->|Ha].
  - destruct s as [|b s]; [done|]. rewrite startsWith_dot in Hhead.
    cbn [andb] in Hhead.
    destruct (Ascii.eqb_spec "." b) as [<-|Hb]; [done|].
    transitivity (String "." (replaceDotDot (String b s))).
    { cbn [replaceDotDot]. destruct b as [[] [] [] [] [] [] [] []]; done. }
    f_equal. apply IH; [lia|done].
  - transitivity (String a (replaceDotDot s)).
    { cbn [replaceDotDot]. destruct a as [[] [] [] [] [] [] [] []]; done. }
    f_equal. apply IH; [lia|done].
Qed.

(** X13. The relative path [profilePath] builds never holds [..],
    for any identifier, checked by [assertSafeProfileId] or not; an
    identifier holding [..] names the file of the identifier with [__] in
    its place; and for an identifier [assertSafeProfileId] accepts the path
    is made of the segments of the identifier as they are. *)
Theorem profilePath_no_traversal pathJoin baseDir profileId :
  Js.includes ".." (replaceDotDot profileId) = false
  ∧ profilePath pathJoin baseDir (replaceDotDot profileId)
    = profilePath pathJoin baseDir profileId
  ∧ (Index.assertSafeProfileId profileId = Ok tt →
     profilePath pathJoin baseDir profileId
     = pathJoin (baseDir :: Js.split "/" profileId) +:+ ".yaml").
Proof.
  assert (Js.includes ".." (replaceDotDot profileId) = false) as Hsafe
    by by eapply replaceDotDot_safe_aux.
  split_and!; [done| |].
  - unfold profilePath. by rewrite (replaceDotDot_id_aux _ _ (Nat.le_refl _) Hsafe).
  - unfold Index.assertSafeProfileId, profilePath.
    destruct (Js.includesChar _ _); [done|]. destruct (Js.startsWith _ _); [done|].
    destruct (Js.includes ".." profileId) eqn:Hdots; [done|]. intros _.
    by rewrite (replaceDotDot_id_aux _ _ (Nat.le_refl _)).
Qed.

(** An induction principle for documents that reaches the values of an
    object. *)
Lemma Value_entries_ind (P : Value → Prop) :
  (∀ v, isRecord v = false → P v) →
  (∀ entries, Forall (λ kv, P kv.2) entries → P (VObj entries)) →
  ∀ v, P v.
Proof.
  intros Hother Hobj. fix IH 1. intros [| | | | |entries]; try by apply Hother.
  apply Hobj. induction entries as [|[k v] entries IHentries]; constructor.
  - apply IH.
  - exact IHentries.
Qed.

(** X14. [collectObservationGroups] never yields a group without
    observations, at any depth of the document and for any current
    path. *)
Theorem collectObservationGroups_nonempty node currentPath g :
  g ∈ collectObservationGroups node currentPath → observations g ≠ [].
Proof.
  revert currentPath. induction node as [v Hv|entries IH] using Value_entries_ind;
    intros currentPath.
  { destruct v; try done; intros Hg; by apply elem_of_nil in Hg. }
  cbn [collectObservationGroups].
  induction IH as [|[k v] entries Hv _ IHentries]; [by intros ?%elem_of_nil|].
  cbn [snd] in Hv. cbn.
  destruct (String.eqb k "observations"), v as [| | | |items|es];
    try exact IHentries.
  - destruct (stringItems items) eqn:Hitems; [exact IHentries|].
    intros [->|Hg]%elem_of_cons; [done|auto].
  - intros [Hg|Hg]%elem_of_app; [by eapply Hv|auto].
  - intros [Hg|Hg]%elem_of_app; [by eapply Hv|auto].
Qed.

Import Samples.

Lemma resolveProfiles_exact_witness :
  match ProfileStore.resolveProfiles pathJoin profilesDir diamond 5 ["a"] with
  | Some (Ok out) => NoDup (id <$> out)
  | _ => False
  end.
Proof.
  destruct (ProfileStore.resolveProfiles pathJoin profilesDir diamond 5 ["a"])
    as [[out|e]|] eqn:Hout.
  - by destruct (resolveProfiles_exact _ _ _ _ _ _ Hout) as (_ & Hnodup & _).
  - vm_compute in Hout. discriminate.
  - vm_compute in Hout. discriminate.
Defined.


Lemma resolveProfiles_repeated_entries_witness :
  ProfileStore.resolveProfiles pathJoin profilesDir diamond 5 (["a"; "b"] ++ ["a"])
  = ProfileStore.resolveProfiles pathJoin profilesDir diamond 5 ["a"; "b"].
Proof.
  apply resolveProfiles_repeated_entries.
  intros e ->%list_elem_of_singleton. left.
Defined.

Lemma collectObservationGroups_nonempty_witness :
  observations {| groupPath := "context"; observations := ["x"] |} ≠ [].
Proof.
  apply (collectObservationGroups_nonempty
           (VObj [("context", VObj [("observations", VArr [VStr "x"; VNum 1])])])
           []).
  vm_compute. left.
Defined.

End ProfileResolution.

(** * Rendering of step texts *)

Module RenderingFacts.
Import TaskExecutor.

Section Rendering.

Variable JSON_stringify : Value → string.

Lemma replaceAll_absent template key replacement :
  Js.includesChar "{" template = false →
  Js.replaceAll template (placeholder key) replacement = template.
Proof.
  intros Hplain. unfold Js.replaceAll, placeholder.
  rewrite JsFacts.app_cons, JsFacts.app_nil_l.
  rewrite <-(JsFacts.app_nil_r template) at 1.
  rewrite (JsFacts.replaceAllFrom_text _ _ template "" ""); [|done..].
  apply JsFacts.app_nil_r.
Qed.

(** X15. A template text without an opening brace is returned
    as it is by [substituteVariables], whatever the inputs and their
    values. *)
Theorem substituteVariables_without_braces template inputs :
  Js.includesChar "{" template = false →
  substituteVariables JSON_stringify template inputs = template.
Proof.
  intros Hplain. unfold substituteVariables, substituteEach.
  induction (allVars inputs) as [|[k v] vars IH]; [done|].
  cbn [foldl fst snd]. by rewrite replaceAll_absent.
Qed.

Lemma split_pieces_plain sep s piece :
  piece ∈ Js.split sep s → Js.includesChar sep piece = false.
Proof.
  revert piece. induction s as [|a s IH]; intros piece; cbn [Js.split].
  - by intros ->%list_elem_of_singleton.
  - destruct (Ascii.eqb_spec a sep) as [->|Hne].
    + intros [->|Hp]%elem_of_cons; [done|auto].
    + destruct (Js.split sep s) as [|h t] eqn:Hsplit.
      * intros ->%list_elem_of_singleton. cbn.
        by destruct (Ascii.eqb_spec a sep).
      * intros [->|Hp]%elem_of_cons.
        -- cbn [Js.includesChar]. destruct (Ascii.eqb_spec a sep); [done|].
           apply IH. left.
        -- apply IH. by right.
Qed.

(** X16. The only variable [deriveConvenienceVariables] derives is
    [resource], and only from an [endpoint_path] that is a string: its
    value is one of the segments of that path between slashes, it is not
    empty and holds no slash, colon or question mark. *)
Theorem derived_resource_is_a_segment inputs key segment :
  (key, segment) ∈ deriveConvenienceVariables inputs →
  key = "resource"
  ∧ deriveConvenienceVariables inputs = [(key, segment)]
  ∧ segment ≠ ""
  ∧ Js.includesChar "/" segment = false
  ∧ Js.includesChar ":" segment = false
  ∧ Js.includesChar "?" segment = false
  ∧ ∃ path, Js.prop "endpoint_path" inputs = Some (VStr path)
            ∧ segment ∈ Js.split "/" path.
Proof.
  unfold deriveConvenienceVariables.
  destruct (Js.prop "endpoint_path" inputs) as [[| | |path| |]|];
    try by intros ?%elem_of_nil.
  destruct (last _) as [seg|] eqn:Hlast; [|by intros ?%elem_of_nil].
  intros [= -> ->]%list_elem_of_singleton.
  apply last_Some_elem_of, list_elem_of_filter in Hlast as [Hkeep Hseg].
  apply andb_prop in Hkeep as [[Hne Hcolon]%andb_prop Hquery].
  apply negb_true_iff in Hne, Hcolon, Hquery.
  split_and!; try done.
  - intros ->. done.
  - by eapply split_pieces_plain.
  - by exists path.
Qed.

End Rendering.

Import Samples.

Lemma substituteVariables_without_braces_witness :
  substituteVariables noJson "Run the tests" [("name", VStr "todo.txt")]
  = "Run the tests".
Proof. apply substituteVariables_without_braces. vm_compute. reflexivity. Defined.

Lemma derived_resource_is_a_segment_witness :
  deriveConvenienceVariables [("endpoint_path", VStr "/api/todos/:id")]
  = [("resource", "todos")]
  ∧ "todos" ∈ Js.split "/" "/api/todos/:id".
Proof.
  destruct (derived_resource_is_a_segment
              [("endpoint_path", VStr "/api/todos/:id")] "resource" "todos")
    as (_ & Hderived & _ & _ & _ & _ & path & Hpath & Hsegment).
  - vm_compute. left.
  - split; [exact Hderived|]. by injection Hpath as <-.
Defined.

End RenderingFacts.

(** * The instance store *)

Module InstanceLibrary.
Import InstanceStore.

Lemma drop_app s t : Js.drop (String.length s) (s +:+ t) = t.
Proof. induction s as [|a s IH]; [by destruct t|]. by rewrite JsFacts.app_cons. Qed.

Lemma endsWith_app s suffix : Js.endsWith suffix (s +:+ suffix) = true.
Proof.
  induction s as [|a s IH].
  - rewrite JsFacts.app_nil_l. destruct suffix; cbn [Js.endsWith];
      by rewrite String.eqb_refl.
  - rewrite JsFacts.app_cons. cbn [Js.endsWith]. rewrite IH. apply orb_true_r.
Qed.

Lemma string_length_app s t : String.length (s +:+ t) = String.length s + String.length t.
Proof. induction s as [|a s IH]; [done|]. rewrite JsFacts.app_cons. cbn. by rewrite IH. Qed.

Lemma take_app s t : Js.take (String.length s) (s +:+ t) = s.
Proof.
  induction s as [|a s IH]; [by destruct t|]. rewrite JsFacts.app_cons. cbn.
  by rewrite IH.
Qed.

Lemma withoutJson_app s : withoutJson (s +:+ ".json") = s.
Proof.
  unfold withoutJson. rewrite string_length_app.
  replace (String.length s + String.length ".json" - 5) with (String.length s)
    by (cbn; lia).
  apply take_app.
Qed.

Lemma endsWith_length suffix s :
  Js.endsWith suffix s = true → String.length suffix ≤ String.length s.
Proof.
  induction s as [|a s IH]; cbn [Js.endsWith].
  - rewrite orb_false_r. by intros ->%String.eqb_eq.
  - intros [->%String.eqb_eq|Hs%IH]%orb_prop; cbn; lia.
Qed.

Lemma endsWith_take suffix s :
  Js.endsWith suffix s = true →
  Js.take (String.length s - String.length suffix) s +:+ suffix = s.
Proof.
  induction s as [|a s IH]; cbn [Js.endsWith].
  - rewrite orb_false_r. by intros ->%String.eqb_eq.
  - intros [->%String.eqb_eq|Hs]%orb_prop.
    + by rewrite Nat.sub_diag.
    + pose proof (endsWith_length _ _ Hs).
      replace (String.length (String a s) - String.length suffix)
        with (S (String.length s - String.length suffix)) by (cbn; lia).
      cbn [Js.take]. by rewrite JsFacts.app_cons, IH.
Qed.

Lemma startsWith_drop prefix s :
  Js.startsWith prefix s = true → s = prefix +:+ Js.drop (String.length prefix) s.
Proof.
  revert s. induction prefix as [|a p IH]; intros s; [by destruct s|].
  destruct s as [|b s]; [done|]. cbn [Js.startsWith].
  destruct (Ascii.eqb_spec a b) as [->|]; [|done]. intros Hs%IH.
  rewrite JsFacts.app_cons. cbn [String.length Js.drop]. by f_equal.
Qed.

Lemma startsWith_app_inv prefix s t :
  Js.startsWith s t = true → Js.startsWith (prefix +:+ s) (prefix +:+ t) = true.
Proof.
  intros Hs. induction prefix as [|a p IH]; [done|].
  rewrite !JsFacts.app_cons. cbn [Js.startsWith]. by rewrite Ascii.eqb_refl.
Qed.

Lemma split_head sep s first :
  head (Js.split sep s) = Some first → Js.startsWith first s = true.
Proof.
  revert first. induction s as [|a s IH]; intros first; cbn [Js.split].
  - by intros [= <-].
  - destruct (Ascii.eqb a sep); [by intros [= <-]|].
    destruct (Js.split sep s) as [|h t] eqn:Hsplit.
    + intros [= <-]. cbn. by rewrite Ascii.eqb_refl.
    + intros [= <-]. cbn [Js.startsWith]. rewrite Ascii.eqb_refl. by apply IH.
Qed.

Section Store.

Variable ajv : Schema.Ajv.
Variable templates : gmap string TemplateStore.Document.
Variable files : gmap string TaskInstance.

(** X17. When [generateInstance] succeeds, the instance holds
    exactly the arguments of the call with the fresh identifier, the time of
    creation and the status [pending]; it is stored at the path of the
    project and of that identifier, the template it names loads, and
    [getInstance] of the project and the identifier returns it. *)
Theorem generateInstance_getInstance uuid now projectSlug templateId
    templateVersion inputs mcdHash domainProfiles files' instance :
  generateInstance ajv templates files uuid now projectSlug templateId
    templateVersion inputs mcdHash domainProfiles = (files', Ok instance) →
  instance = {| instance_id := uuid; project_slug := projectSlug;
                template_id := templateId; template_version := templateVersion;
                inputs := inputs; mcd_hash := mcdHash;
                domain_profiles := domainProfiles; created_at := now;
                status := Some pending |}
  ∧ files' = <[instancePath projectSlug uuid := instance]> files
  ∧ getInstance files' projectSlug uuid = Ok instance
  ∧ ∃ template,
      TemplateStore.loadTemplate templates templateId (Some templateVersion)
      = Ok template.
Proof.
  unfold generateInstance.
  destruct (TemplateStore.loadTemplate templates templateId (Some templateVersion))
    as [template|e]; [|done].
  destruct (Schema.validateSchema ajv _ _) as [validation|thrown]; [|done].
  destruct (negb (Schema.valid validation)); [done|].
  destruct (validateInstance _) eqn:Hvalid; [|done].
  intros [= <- <-]. split_and!; [done..| |by exists template].
  unfold getInstance. rewrite lookup_insert_eq. by rewrite Hvalid.
Qed.

(** X18. Whatever makes [generateInstance] fail, the instance
    files are left as they were. A failure of the template store is the
    failure of [loadTemplate] for the requested version; a generated
    instance is refused only for an empty identifier, project, template or
    hash or a version below 1; and the errors of [getInstance] never come
    out of it. *)
Theorem generateInstance_failure_keeps_files uuid now projectSlug templateId
    templateVersion inputs mcdHash domainProfiles files' e :
  generateInstance ajv templates files uuid now projectSlug templateId
    templateVersion inputs mcdHash domainProfiles = (files', Err e) →
  files' = files
  ∧ match e with
    | FromTemplateStore e' =>
        TemplateStore.loadTemplate templates templateId (Some templateVersion)
        = Err e'
    | SchemaRefused _ | InputValidationFailed _ _ _ => True
    | GeneratedInstanceInvalid errors =>
        errors ≠ []
        ∧ (uuid = "" ∨ projectSlug = "" ∨ templateId = "" ∨ mcdHash = ""
           ∨ (templateVersion < 1)%Z)
    | InstanceNotFound _ _ | InvalidInstanceStructure _ => False
    end.
Proof.
  unfold generateInstance.
  destruct (TemplateStore.loadTemplate templates templateId (Some templateVersion))
    as [template|e']; [|by intros [= <- <-]].
  destruct (Schema.validateSchema ajv _ _) as [validation|thrown];
    [|by intros [= <- <-]].
  destruct (negb (Schema.valid validation)); [by intros [= <- <-]|].
  destruct (validateInstance _) as [|err errs] eqn:Hvalid; [done|].
  intros [= <- <-]. split_and!; [done..|].
  unfold validateInstance in Hvalid. cbn in Hvalid.
  destruct (String.eqb_spec uuid ""); [by left|].
  destruct (String.eqb_spec projectSlug ""); [by right; left|].
  destruct (String.eqb_spec templateId ""); [by right; right; left|].
  destruct (String.eqb_spec mcdHash ""); [by right; right; right; left|].
  destruct (Z.ltb_spec templateVersion 1); [by right; right; right; right|].
  done.
Qed.

(** X19. [listInstances] returns its identifiers in the order of
    the code units; it lists every identifier without a slash that has an
    instance file in the directory of the project, and every identifier it
    lists is backed by a stored path that starts with the path of that
    instance file. *)
Theorem listInstances_lists_stored projectSlug :
  StronglySorted String.le (listInstances files projectSlug)
  ∧ (∀ instanceId,
       Js.includesChar "/" instanceId = false →
       is_Some (files !! instancePath projectSlug instanceId) →
       instanceId ∈ listInstances files projectSlug)
  ∧ (∀ instanceId,
       instanceId ∈ listInstances files projectSlug →
       ∃ path, is_Some (files !! path)
               ∧ Js.startsWith (instancePath projectSlug instanceId) path = true).
Proof.
  split; [apply StronglySorted_merge_sort; apply _|]. split; last first.
  { intros instanceId. unfold listInstances.
    rewrite merge_sort_Permutation.
    intros (f & -> & [Hjson Hf]%list_elem_of_filter)%list_elem_of_fmap.
    apply elem_of_remove_dups, list_elem_of_omap in Hf as (path & Hpath & Hhead).
    exists path. split; [by apply elem_of_dom, elem_of_elements|].
    destruct (Js.startsWith (projectSlug +:+ "/") path) eqn:Hprefix; [|done].
    apply split_head in Hhead. apply startsWith_drop in Hprefix.
    rewrite Hprefix. unfold instancePath, withoutJson.
    change 5 with (String.length ".json"). rewrite endsWith_take by done.
    rewrite <-JsFacts.app_assoc'. by apply startsWith_app_inv. }
  intros instanceId Hplain Hfile. unfold listInstances.
  rewrite merge_sort_Permutation. apply list_elem_of_fmap.
  exists (instanceId +:+ ".json"). split; [by rewrite withoutJson_app|].
  apply list_elem_of_filter. split; [apply endsWith_app|].
  unfold readProjectDir. apply elem_of_remove_dups, list_elem_of_omap.
  exists (instancePath projectSlug instanceId).
  split; [by apply elem_of_elements, elem_of_dom|].
  unfold instancePath. rewrite <-JsFacts.app_assoc', JsFacts.startsWith_app, drop_app.
  rewrite BuiltinFacts.split_plain; [done|].
  by rewrite JsFacts.includesChar_app, Hplain.
Qed.

End Store.

Import Samples.

(** An instance without an identifier is refused with the one violation. *)
Example generateInstance_refuses_generated :
  generateInstance flatAjv templates ∅ "" now "demo" "t" 1
    [("name", VStr "todo.txt")] "abc123" []
  = (∅, Err (GeneratedInstanceInvalid
               ["/instance_id must NOT have fewer than 1 characters"])).
Proof. vm_compute. reflexivity. Qed.

Lemma generateInstance_getInstance_witness :
  ∃ instance,
    getInstance
      (generateInstance flatAjv templates ∅ "uuid-1" now "demo" "t" 1
         [("name", VStr "todo.txt")] "abc123" []).1 "demo" "uuid-1"
    = Ok instance
    ∧ inputs instance = [("name", VStr "todo.txt")].
Proof.
  destruct (generateInstance flatAjv templates ∅ "uuid-1" now "demo" "t" 1
              [("name", VStr "todo.txt")] "abc123" []) as [files' [instance|e]]
    eqn:Hgenerate.
  - destruct (generateInstance_getInstance _ _ _ _ _ _ _ _ _ _ _ _ _ Hgenerate)
      as (-> & _ & Hget & _).
    eexists. split; [exact Hget|done].
  - vm_compute in Hgenerate. discriminate.
Defined.

Lemma generateInstance_failure_keeps_files_witness :
  (generateInstance flatAjv templates instances "uuid-1" now "demo" "t" 2
     [("name", VStr "todo.txt")] "abc123" []).1 = instances.
Proof.
  destruct (generateInstance flatAjv templates instances "uuid-1" now "demo" "t" 2
              [("name", VStr "todo.txt")] "abc123" []) as [files' [instance|e]]
    eqn:Hgenerate.
  - vm_compute in Hgenerate. discriminate.
  - by destruct (generateInstance_failure_keeps_files _ _ _ _ _ _ _ _ _ _ _ _ _
                   Hgenerate) as [-> _].
Defined.

End InstanceLibrary.

(** * Plan files *)

Module PlanFacts.
Import TaskExecutor.

Lemma app_inj_suffix s t suffix : s +:+ suffix = t +:+ suffix → s = t.
Proof.
  intros Heq. apply (f_equal String.list_ascii_of_string) in Heq.
  rewrite !BuiltinFacts.list_ascii_app in Heq. apply app_inv_tail in Heq.
  apply (f_equal String.string_of_list_ascii) in Heq.
  by rewrite !String.string_of_list_ascii_of_string in Heq.
Qed.


Section Plans.

Variable JSON_stringify : Value → string.
Variable pathJoin : list string → string.
Variable profilesDir : string.
Variable profiles : gmap string Value.
Variable templates : gmap string TemplateStore.Document.
Variable instances : gmap string InstanceStore.TaskInstance.

Local Abbreviation prepareTask :=
  (TaskExecutor.prepareTask JSON_stringify pathJoin profilesDir profiles
     templates instances).

(** X20. [prepareTask] touches no plan file but the one of the new
    plan. When it fails it writes nothing, and an error of the instance
    store is the error of [getInstance]; the errors of [executeTask] never
    come out of it. When it succeeds the plan is stored, carries the fresh
    identifier, the time of creation and the status [pending], names the
    instance that [getInstance] returns and its template version, which
    loads, keeps the identifiers of the steps and of the verification
    entries of that template in their order, and has a domain framework
    exactly when the instance names domain profiles. *)
Theorem prepareTask_plan plans fuel planId now projectSlug instanceId plans'
    outcome :
  prepareTask plans fuel planId now projectSlug instanceId
  = Some (plans', outcome) →
  (∀ path, path ≠ planPath planId → plans' !! path = plans !! path)
  ∧ match outcome with
    | Err e =>
        plans' = plans
        ∧ match e with
          | FromInstanceStore e' =>
              InstanceStore.getInstance instances projectSlug instanceId = Err e'
          | FromTemplateStore _ | FromProfileStore _ => True
          | CannotExecute _ | ENOENT _ | StepFailed _ => False
          end
    | Ok plan =>
        is_Some (plans' !! planPath planId)
        ∧ plan_id plan = planId ∧ status plan = pending ∧ created_at plan = now
        ∧ ∃ instance template,
            InstanceStore.getInstance instances projectSlug instanceId
            = Ok instance
            ∧ TemplateStore.loadTemplate templates
                (InstanceStore.template_id instance)
                (Some (InstanceStore.template_version instance)) = Ok template
            ∧ instance_id plan = InstanceStore.instance_id instance
            ∧ project_slug plan = InstanceStore.project_slug instance
            ∧ template_id plan = InstanceStore.template_id instance
            ∧ template_version plan = InstanceStore.template_version instance
            ∧ TemplateStore.step_id <$> steps plan
              = TemplateStore.step_id <$> TemplateStore.steps template
            ∧ TemplateStore.verify_id <$> verification plan
              = TemplateStore.verify_id
                <$> default [] (TemplateStore.verification template)
            ∧ (domain_framework plan = None
               ↔ InstanceStore.domain_profiles instance = [])
    end.
Proof.
  unfold TaskExecutor.prepareTask.
  destruct (InstanceStore.getInstance instances projectSlug instanceId)
    as [instance|e] eqn:Hinstance; [|by intros [= <- <-]].
  destruct (TemplateStore.loadTemplate templates _ _) as [template|e] eqn:Htemplate;
    [|by intros [= <- <-]].
  assert (∀ inputs, TemplateStore.step_id <$> renderSteps JSON_stringify template inputs
                    = TemplateStore.step_id <$> TemplateStore.steps template) as Hsteps.
  { intros inputs. unfold renderSteps. by rewrite <-list_fmap_compose. }
  assert (∀ inputs,
            TemplateStore.verify_id <$> renderVerification JSON_stringify template inputs
            = TemplateStore.verify_id
              <$> default [] (TemplateStore.verification template)) as Hverify.
  { intros inputs. unfold renderVerification. by rewrite <-list_fmap_compose. }
  destruct (InstanceStore.domain_profiles instance) as [|d ds] eqn:Hprofiles.
  - intros [= <- <-]. cbn. split; [intros path Hpath; by rewrite lookup_insert_ne|].
    rewrite lookup_insert_eq. split_and!; try done. exists instance, template.
    split_and!; try done.
  - destruct (ProfileStore.resolveProfiles _ _ _ _ _) as [[resolved|e]|];
      [|by intros [= <- <-]|done].
    intros [= <- <-]. cbn. split; [intros path Hpath; by rewrite lookup_insert_ne|].
    rewrite lookup_insert_eq. split_and!; try done. exists instance, template.
    rewrite Hprofiles. split_and!; try done.
Qed.

End Plans.


Import Samples.

(** A single domain profile is resolved and compiled into the plan. *)
Example prepareTask_with_profile :
  ∃ plans' plan,
    TaskExecutor.prepareTask noJson pathJoin profilesDir diamond templates
      {[ "demo/i-2.json" := profiledInstance ]} ∅ 5 "p-2" now "demo" "i-2"
    = Some (plans', Ok plan)
    ∧ domain_framework plan = Some ("# Profile: d" +:+ Js.newline +:+ "D").
Proof. eexists _, _. split; vm_compute; reflexivity. Qed.

Lemma prepareTask_plan_witness :
  ∃ instance,
    InstanceStore.getInstance instances "demo" "i-1" = Ok instance
    ∧ instance_id todoPlan = InstanceStore.instance_id instance.
Proof.
  destruct (prepareTask_plan noJson pathJoin profilesDir ∅ templates instances ∅ 0
              "p-1" now "demo" "i-1" {[ "p-1.yaml" := todoPlan ]} (Ok todoPlan))
    as (_ & _ & _ & _ & _ & instance & template & Hinstance & _ & Hid & _).
  - vm_compute. reflexivity.
  - by exists instance.
Defined.

End PlanFacts.

(** * Checks on tool arguments *)

Module ArgumentFacts.
Import Index.

Lemma slugCharacter_plain c :
  slugCharacter c = true → c ≠ "/"%char ∧ c ≠ "\"%char.
Proof. destruct c as [[] [] [] [] [] [] [] []]; done. Qed.

(** X22. [assertSafeProjectSlug] accepts exactly the slugs of 1
    to 120 characters, all of them letters, digits, dots, underscores or
    dashes, that do not hold [..]; the separators its first test rejects are
    outside that class anyway. *)
Theorem assertSafeProjectSlug_accepts slug :
  assertSafeProjectSlug slug = Ok tt
  ↔ slug ≠ "" ∧ String.length slug ≤ 120
    ∧ Forall (λ c, slugCharacter c = true) (String.list_ascii_of_string slug)
    ∧ Js.includes ".." slug = false.
Proof.
  unfold assertSafeProjectSlug. split.
  - destruct (Js.includesChar "\" slug); [done|].
    destruct (Js.includesChar "/" slug); [done|].
    destruct (Js.includes ".." slug); [done|].
    destruct (Nat.ltb_spec 120 (String.length slug)); [done|]. cbn [orb].
    destruct (String.eqb_spec slug ""); [done|]. cbn [negb andb].
    destruct (forallb slugCharacter _) eqn:Hall; [|done]. intros _.
    split_and!; [done|lia| |done].
    apply Forall_forall. intros c Hc%list_elem_of_In.
    rewrite forallb_forall in Hall. auto.
  - intros (Hne & Hlen & Hall & ->).
    assert (Js.includesChar "\" slug = false) as ->.
    { apply BuiltinFacts.includesChar_false. eapply Forall_impl; [done|].
      by intros c [_ ?]%slugCharacter_plain. }
    assert (Js.includesChar "/" slug = false) as ->.
    { apply BuiltinFacts.includesChar_false. eapply Forall_impl; [done|].
      by intros c [? _]%slugCharacter_plain. }
    destruct (Nat.ltb_spec 120 (String.length slug)); [lia|]. cbn [orb].
    destruct (String.eqb_spec slug ""); [done|]. cbn [negb andb].
    assert (forallb slugCharacter (String.list_ascii_of_string slug) = true) as ->;
      [|done].
    apply forallb_forall. intros c Hc%list_elem_of_In.
    rewrite Forall_forall in Hall. auto.
Qed.

Lemma length_omap_le {A B} (f : A → option B) l : length (omap f l) ≤ length l.
Proof. induction l as [|x l IH]; [done|]. cbn. destruct (f x); cbn; lia. Qed.

Lemma omap_full {A B} (f : A → option B) (g : B → A) l :
  (∀ a b, f a = Some b → a = g b) →
  length (omap f l) = length l →
  l = g <$> omap f l ∧ Forall (λ b, ∃ a, f a = Some b) (omap f l).
Proof.
  intros Hfg. induction l as [|x l IH]; [done|].
  pose proof (length_omap_le f l) as Hle. cbn.
  destruct (f x) as [y|] eqn:Hx; cbn; [|lia].
  intros [= Hl]. destruct (IH Hl) as [Heq Hall].
  split; [by rewrite <-Heq, <-(Hfg _ _ Hx)|]. constructor; eauto.
Qed.

(** X23. When [asStringArray] accepts an argument, the argument is
    an array of strings, none of them blank and at least one, and the result
    is those strings, unchanged and in order. *)
Theorem asStringArray_accepts v label out :
  asStringArray v label = Ok out →
  out ≠ [] ∧ v = Some (VArr (VStr <$> out))
  ∧ Forall (λ s, Js.trim s ≠ "") out.
Proof.
  unfold asStringArray.
  destruct v as [[| | | |[|x xs]|]|]; try done.
  remember (x :: xs) as items eqn:Hitems.
  destruct (Nat.eqb _ (length items)) eqn:Hlen; [|done]. apply Nat.eqb_eq in Hlen.
  intros [= <-].
  apply (omap_full _ VStr) in Hlen as Hfull.
  2:{ intros [| | |s| |] t; try done. destruct (blank s); [done|]. by intros [= ->]. }
  destruct Hfull as [Heq Hall]. split_and!.
  - intros Hnil. rewrite Hnil, Hitems in Hlen. done.
  - by rewrite <-Heq.
  - eapply Forall_impl; [exact Hall|]. intros s ([| | |s'| |] & Hs); try done.
    unfold blank in Hs. destruct (String.eqb_spec (Js.trim s') ""); [done|].
    by injection Hs as <-.
Qed.

Lemma asStringArray_accepts_witness :
  Some (VArr [VStr "a"; VStr "b"]) = Some (VArr (VStr <$> ["a"; "b"])).
Proof.
  destruct (asStringArray_accepts (Some (VArr [VStr "a"; VStr "b"])) "ids" ["a"; "b"])
    as (_ & Hsame & _); [vm_compute; reflexivity|exact Hsame].
Defined.

End ArgumentFacts.

(** * The MCD store *)

Module McdFacts.
Import McdStore.

Section Store.

Variable digest : string → string.
Variable files : Files.

(** X24. [get] after [put] of the same project returns the markdown
    that was put and the metadata [put] returned: the digest of that
    markdown and the time of the [put], not the time of the [get]. *)
Theorem mcd_put_get now later projectSlug markdown :
  get digest (put digest files now projectSlug markdown).1 later projectSlug
  = Some (markdown, (put digest files now projectSlug markdown).2)
  ∧ (put digest files now projectSlug markdown).2
    = {| project_slug := projectSlug; sha256 := digest markdown;
         updated_at := now |}.
Proof.
  unfold get, put. cbn. by rewrite !lookup_insert_eq.
Qed.

(** X25. [put] for one project leaves what [get] returns for every
    other project as it was. *)
Theorem mcd_put_other_project now later projectSlug markdown other :
  other ≠ projectSlug →
  get digest (put digest files now projectSlug markdown).1 later other
  = get digest files later other.
Proof.
  intros Hother. unfold get, put, mcdPath, metaPath. cbn.
  rewrite !lookup_insert_ne; [done|..]; by intros ?%PlanFacts.app_inj_suffix.
Qed.

End Store.

Lemma mcd_put_other_project_witness :
  get (λ text, text)
    (put (λ text, text) {| documents := ∅; metadata := ∅ |}
       "2025-12-13T00:00:00.000Z" "alpha" "# Alpha").1
    "2025-12-14T00:00:00.000Z" "beta" = None.
Proof.
  rewrite mcd_put_other_project; [vm_compute; reflexivity|]. vm_compute. discriminate.
Defined.

End McdFacts.
